(** * Payload repair, parsing, extraction and table assembly

    A shallow embedding of the extraction pipeline of [teste.py] and
    [teste_automacao-2/processar_propostas.py], with the parts of the Python
    runtime the two scripts rely on ([str.strip], [re.sub], [json.loads],
    [dict], [pandas.DataFrame]) modelled next to them. *)

From Stdlib Require Import String Ascii.
From Stdlib Require DecimalString.
From Stdlib Require Import List NArith ZArith Bool Lia.
Import ListNotations.

Local Open Scope N_scope.

(** ** Python text *)

Module Py.

(** A Python [str] is a sequence of Unicode code points. *)
Definition char := N.
Definition text := list char.

(** Literals.  [txt] reads an ASCII literal; [js] does the same and turns every
    apostrophe (39) into a quotation mark (34), so that JSON examples can be
    written as ['{'a':1}']. *)
Definition txt (s : String.string) : text :=
  map N_of_ascii (String.list_ascii_of_string s).
Definition js (s : String.string) : text :=
  map (fun c => if c =? 39 then 34 else c) (txt s).

Arguments txt s%_string.
Arguments js s%_string.

Fixpoint text_eqb (a b : text) : bool :=
  match a, b with
  | [], [] => true
  | x :: a', y :: b' => (x =? y) && text_eqb a' b'
  | _, _ => false
  end.

(** [str.isspace] on one code point, which is also what [\s] matches in a
    [str] pattern: TAB..CR, FS..US, SPACE, NEL, NBSP and the Unicode spaces. *)
Definition isspace (c : char) : bool :=
  ((9 <=? c) && (c <=? 13)) || ((28 <=? c) && (c <=? 32))
  || (c =? 133) || (c =? 160) || (c =? 5760)
  || ((8192 <=? c) && (c <=? 8202))
  || (c =? 8232) || (c =? 8233) || (c =? 8239) || (c =? 8287) || (c =? 12288).

Fixpoint lstrip (s : text) : text :=
  match s with
  | c :: r => if isspace c then lstrip r else s
  | [] => []
  end.

Definition rstrip (s : text) : text := rev (lstrip (rev s)).

(** [s.strip()] *)
Definition strip (s : text) : text := rstrip (lstrip s).

(** [s.startswith(c)] for a one-character prefix. *)
Definition startswith (c : char) (s : text) : bool :=
  match s with
  | x :: _ => x =? c
  | [] => false
  end.

(** [s.replace('\x00', '')] *)
Definition remove_nul (s : text) : text := filter (fun c => negb (c =? 0)) s.

(** *** [re.sub] for the three patterns of the repairer

    [re.sub(r':\s*D', ':nullD', s)] for a one-character delimiter [D].  The
    engine scans from the left; at a colon it consumes the longest run of
    whitespace and asks for [D] (a shorter run cannot help: the character
    after it would be whitespace, which [D] is not); on a match it emits the
    replacement and resumes after the match, otherwise it copies the
    character and moves one position on. *)

Definition colon : char := 58.
Definition comma : char := 44.
Definition rbrace : char := 125.
Definition rbracket : char := 93.

(** Text after [\s*D] when it matches at the head of [r]. *)
Definition casa (d : char) (r : text) : option text :=
  match lstrip r with
  | c :: r' => if c =? d then Some r' else None
  | [] => None
  end.

Definition null_lit : text := [110; 117; 108; 108].

Fixpoint re_sub_go (n : nat) (d : char) (s : text) : text :=
  match n with
  | O => s
  | S n' =>
    match s with
    | [] => []
    | c :: r =>
      if c =? colon then
        match casa d r with
        | Some r' => colon :: null_lit ++ d :: re_sub_go n' d r'
        | None => c :: re_sub_go n' d r
        end
      else c :: re_sub_go n' d r
    end
  end.

(** One step per input character is enough: every step consumes one. *)
Definition re_sub_colon (d : char) (s : text) : text :=
  re_sub_go (length s) d s.

(** ** Python values

    A [scalar] is what a spreadsheet cell holds once pandas has read it, and
    also the leaf of a decoded JSON document.  A finite float is kept as the
    literal it was read from: its arithmetic is not modelled. *)

Inductive scalar : Type :=
| SNone                      (* None, JSON null *)
| SNaN                       (* float('nan'), the empty cell *)
| SInf (neg : bool)          (* float('inf'), float('-inf') *)
| SBool (b : bool)
| SInt (z : Z)
| SFloat (lex : text)
| SStr (s : text).

#[warnings="-register-all"]
Inductive value : Type :=
| VSc (x : scalar)
| VList (l : list value)
| VDict (d : list (text * value)).

Coercion VSc : scalar >-> value.

(** A [dict] keeps its keys in insertion order. *)
Definition dict := list (text * value).

Fixpoint dict_get (k : text) (d : dict) : option value :=
  match d with
  | [] => None
  | (k', v) :: r => if text_eqb k' k then Some v else dict_get k r
  end.

(** [k in d] *)
Definition dict_in (k : text) (d : dict) : bool :=
  match dict_get k d with Some _ => true | None => false end.

(** [d[k] = v]: an existing key keeps its place, a new one goes last. *)
Fixpoint dict_set (k : text) (v : value) (d : dict) : dict :=
  match d with
  | [] => [(k, v)]
  | (k', v') :: r =>
    if text_eqb k' k then (k', v) :: r else (k', v') :: dict_set k v r
  end.

(** [d.update(e)] *)
Definition dict_update (d e : dict) : dict :=
  fold_left (fun acc kv => dict_set (fst kv) (snd kv) acc) e d.

(** [d.get(k)], which is [None] for a missing key. *)
Definition dict_get_none (k : text) (d : dict) : value :=
  match dict_get k d with Some v => v | None => VSc SNone end.

(** [d.get(k, '')] *)
Definition dict_get_empty (k : text) (d : dict) : value :=
  match dict_get k d with Some v => v | None => VSc (SStr []) end.

Definition is_dict (v : value) : bool :=
  match v with VDict _ => true | _ => false end.

(** The dicts of a list, in order: [[p for p in l if isinstance(p, dict)]]. *)
Fixpoint only_dicts (l : list value) : list dict :=
  match l with
  | [] => []
  | VDict d :: r => d :: only_dicts r
  | _ :: r => only_dicts r
  end.

(** ** [json.loads]

    The decoder of the standard library with its default settings: strict
    strings, [NaN], [Infinity] and [-Infinity] accepted, a repeated key keeps
    its first position and its last value.  The interpreter's recursion limit
    and its limit on the number of digits of an integer are not modelled. *)

(** The result of scanning a prefix of the text. *)
Inductive res (A : Type) : Type :=
| Val (a : A) (rest : text)  (* decoded, with the text that follows *)
| Bad                        (* JSONDecodeError *)
| Out.                       (* the step budget ran out *)

Arguments Val {A} a rest.
Arguments Bad {A}.
Arguments Out {A}.

(** WHITESPACE = [ \t\n\r]* *)
Definition json_ws (c : char) : bool :=
  (c =? 32) || (c =? 9) || (c =? 10) || (c =? 13).

Fixpoint skip_ws (s : text) : text :=
  match s with
  | c :: r => if json_ws c then skip_ws r else s
  | [] => []
  end.

Definition is_digit (c : char) : bool := (48 <=? c) && (c <=? 57).

Definition hex_digit (c : char) : option N :=
  if (48 <=? c) && (c <=? 57) then Some (c - 48)
  else if (97 <=? c) && (c <=? 102) then Some (c - 87)
  else if (65 <=? c) && (c <=? 70) then Some (c - 55)
  else None.

Definition hex4 (a b c d : char) : option N :=
  match hex_digit a, hex_digit b, hex_digit c, hex_digit d with
  | Some x, Some y, Some z, Some w => Some (((x * 16 + y) * 16 + z) * 16 + w)
  | _, _, _, _ => None
  end.

(** BACKSLASH: the one-character escapes. *)
Definition backslash (e : char) : option char :=
  if e =? 34 then Some 34            (* quotation mark *)
  else if e =? 92 then Some 92       (* backslash *)
  else if e =? 47 then Some 47       (* solidus *)
  else if e =? 98 then Some 8        (* b: backspace *)
  else if e =? 102 then Some 12      (* f: form feed *)
  else if e =? 110 then Some 10      (* n: line feed *)
  else if e =? 114 then Some 13      (* r: carriage return *)
  else if e =? 116 then Some 9       (* t: tab *)
  else None.

Definition high_surrogate (u : N) : bool := (55296 <=? u) && (u <=? 56319).
Definition low_surrogate (u : N) : bool := (56320 <=? u) && (u <=? 57343).

(** [scanstring], entered after the opening quotation mark; [acc] holds the
    decoded characters so far, last first.  A high surrogate followed by the
    escape of a low surrogate is joined with it into one character. *)
Fixpoint scanstring (s : text) (acc : text) : option (text * text) :=
  match s with
  | [] => None                                   (* unterminated string *)
  | c :: r =>
    if c =? 34 then Some (rev acc, r)
    else if c =? 92 then
      match r with
      | [] => None
      | e :: r1 =>
        if e =? 117 then
          match r1 with
          | h1 :: h2 :: h3 :: h4 :: r2 =>
            match hex4 h1 h2 h3 h4 with
            | None => None                       (* invalid \uXXXX escape *)
            | Some uni =>
              match r2 with
              | b :: u :: l1 :: l2 :: l3 :: l4 :: r3 =>
                if high_surrogate uni && (b =? 92) && (u =? 117) then
                  match hex4 l1 l2 l3 l4 with
                  | None => None
                  | Some uni2 =>
                    if low_surrogate uni2 then
                      scanstring r3
                        (65536 + (uni - 55296) * 1024 + (uni2 - 56320) :: acc)
                    else scanstring r2 (uni :: acc)
                  end
                else scanstring r2 (uni :: acc)
              | _ => scanstring r2 (uni :: acc)
              end
            end
          | _ => None
          end
        else
          match backslash e with
          | Some x => scanstring r1 (x :: acc)
          | None => None                         (* invalid \escape *)
          end
      end
    else if c <=? 31 then None                   (* control character *)
    else scanstring r (c :: acc)
  end.

(** The longest run of ASCII digits at the head of the text. *)
Fixpoint digits (s : text) : text * text :=
  match s with
  | c :: r =>
    if is_digit c then let (ds, rest) := digits r in (c :: ds, rest)
    else ([], s)
  | [] => ([], [])
  end.

Definition int_of_digits (ds : text) : Z :=
  fold_left (fun acc c => (acc * 10 + Z.of_N (c - 48))%Z) ds 0%Z.

(** NUMBER_RE has three groups: an optional minus sign and then either 0 or
    a non-zero digit with the digits after it ([integer_part]); optionally a
    dot and at least one digit ([frac_part]); optionally e or E, a sign and at
    least one digit ([exp_part]).  Each function gives the matched text and
    what follows it. *)
Definition integer_part (s : text) : option (text * text) :=
  let (sign, s1) :=
    match s with
    | c :: r => if c =? 45 then ([45], r) else ([], s)
    | [] => ([], s)
    end in
  match s1 with
  | c :: r =>
    if c =? 48 then Some (sign ++ [c], r)
    else if is_digit c then
      let (ds, rest) := digits r in Some (sign ++ c :: ds, rest)
    else None
  | [] => None
  end.

Definition frac_part (s : text) : text * text :=
  match s with
  | c :: r =>
    if c =? 46 then
      match digits r with
      | ([], _) => ([], s)
      | (ds, rest) => (c :: ds, rest)
      end
    else ([], s)
  | [] => ([], s)
  end.

Definition exp_part (s : text) : text * text :=
  match s with
  | c :: r =>
    if (c =? 101) || (c =? 69) then
      let (sign, r1) :=
        match r with
        | g :: r' => if (g =? 45) || (g =? 43) then ([g], r') else ([], r)
        | [] => ([], r)
        end in
      match digits r1 with
      | ([], _) => ([], s)
      | (ds, rest) => (c :: sign ++ ds, rest)
      end
    else ([], s)
  | [] => ([], s)
  end.

Definition match_number (s : text) : option (scalar * text) :=
  match integer_part s with
  | None => None
  | Some (integer, r1) =>
    let (frac, r2) := frac_part r1 in
    let (exp, r3) := exp_part r2 in
    match frac, exp with
    | [], [] =>
      (* int(integer) *)
      if startswith 45 integer
      then Some (SInt (- int_of_digits (tl integer)), r3)
      else Some (SInt (int_of_digits integer), r3)
    | _, _ =>
      (* float(integer + frac + exp) *)
      Some (SFloat (integer ++ frac ++ exp), r3)
    end
  end.

(** [s[idx:idx + len(lit)] == lit], giving the text after the literal. *)
Fixpoint literal (lit s : text) : option text :=
  match lit, s with
  | [], _ => Some s
  | a :: lit', b :: s' => if a =? b then literal lit' s' else None
  | _ :: _, [] => None
  end.

(** [scan_once] with the two loops of [JSONObject] and [JSONArray].  The
    object loop is entered after the opening quotation mark of a key, the
    array loop at the first character of an element. *)
Fixpoint scan_once (n : nat) (s : text) : res value :=
  match n with
  | O => Out
  | S n' =>
    match s with
    | [] => Bad
    | nextchar :: r =>
      if nextchar =? 34 then
        match scanstring r [] with
        | Some (str, rest) => Val (VSc (SStr str)) rest
        | None => Bad
        end
      else if nextchar =? 123 then
        let r := skip_ws r in
        if startswith 125 r then Val (VDict []) (tl r)
        else if startswith 34 r then object_loop n' (tl r) []
        else Bad
      else if nextchar =? 91 then
        let r := skip_ws r in
        if startswith 93 r then Val (VList []) (tl r)
        else array_loop n' r []
      else
        match literal (txt "null") s, literal (txt "true") s,
              literal (txt "false") s with
        | Some rest, _, _ => Val (VSc SNone) rest
        | _, Some rest, _ => Val (VSc (SBool true)) rest
        | _, _, Some rest => Val (VSc (SBool false)) rest
        | None, None, None =>
          match match_number s with
          | Some (x, rest) => Val (VSc x) rest
          | None =>
            match literal (txt "NaN") s, literal (txt "Infinity") s,
                  literal (txt "-Infinity") s with
            | Some rest, _, _ => Val (VSc SNaN) rest
            | _, Some rest, _ => Val (VSc (SInf false)) rest
            | _, _, Some rest => Val (VSc (SInf true)) rest
            | None, None, None => Bad
            end
          end
        end
    end
  end

with object_loop (n : nat) (s : text) (pairs : dict) : res value :=
  match n with
  | O => Out
  | S n' =>
    match scanstring s [] with
    | None => Bad
    | Some (key, r) =>
      let r := skip_ws r in
      if startswith 58 r then
        match scan_once n' (skip_ws (tl r)) with
        | Val v r =>
          let pairs := dict_set key v pairs in
          let r := skip_ws r in
          if startswith 125 r then Val (VDict pairs) (tl r)
          else if startswith 44 r then
            let r := skip_ws (tl r) in
            if startswith 34 r then object_loop n' (tl r) pairs
            else Bad
          else Bad
        | Bad => Bad
        | Out => Out
        end
      else Bad
    end
  end

with array_loop (n : nat) (s : text) (values : list value) : res value :=
  match n with
  | O => Out
  | S n' =>
    match scan_once n' s with
    | Val v r =>
      let values := v :: values in
      let r := skip_ws r in
      if startswith 93 r then Val (VList (rev values)) (tl r)
      else if startswith 44 r then array_loop n' (skip_ws (tl r)) values
      else Bad
    | Bad => Bad
    | Out => Out
    end
  end.

(** Two steps per character and two more always suffice. *)
Definition budget (s : text) : nat := 2 * length s + 2.

(** [json.loads(s)] for a [str]; [None] stands for the exception raised. *)
Definition json_loads (s : text) : option value :=
  if startswith 65279 s then None                (* unexpected BOM *)
  else
    match scan_once (budget s) (skip_ws s) with
    | Val obj rest =>
      match skip_ws rest with
      | [] => Some obj
      | _ :: _ => None                           (* extra data *)
      end
    | _ => None
    end.

(** ** Built-in conversions

    [str(x)] and [bool(x)].  The shortest-digits printing of a float, the
    [repr] of a list or a dict and the test of a float literal against zero
    belong to the interpreter and are taken as given. *)

Record runtime : Type := {
  float_bool : text -> bool;     (* bool(float(lex)) *)
  repr : value -> text           (* str(v) for a float, a list or a dict *)
}.

Definition str_of_Z (z : Z) : text :=
  txt (DecimalString.NilZero.string_of_int (Z.to_int z)).

Definition py_str (rt : runtime) (v : value) : text :=
  match v with
  | VSc (SStr s) => s
  | VSc SNone => txt "None"
  | VSc (SBool true) => txt "True"
  | VSc (SBool false) => txt "False"
  | VSc (SInt z) => str_of_Z z
  | VSc SNaN => txt "nan"
  | VSc (SInf false) => txt "inf"
  | VSc (SInf true) => txt "-inf"
  | VSc (SFloat _) | VList _ | VDict _ => repr rt v
  end.

Definition truthy (rt : runtime) (v : value) : bool :=
  match v with
  | VSc SNone => false
  | VSc (SBool b) => b
  | VSc (SInt z) => negb (z =? 0)%Z
  | VSc SNaN | VSc (SInf _) => true
  | VSc (SFloat lex) => float_bool rt lex
  | VSc (SStr s) => match s with [] => false | _ :: _ => true end
  | VList l => match l with [] => false | _ :: _ => true end
  | VDict d => match d with [] => false | _ :: _ => true end
  end.

(** A runtime for the examples, none of which prints a float, a list or a
    dict. *)
Definition rt_exemplo : runtime :=
  {| float_bool := fun _ => true; repr := fun _ => [] |}.

(** ** pandas *)

(** [pd.isna(x)] and [pd.notna(x)] on a scalar. *)
Definition isnull (x : scalar) : bool :=
  match x with
  | SNone | SNaN => true
  | _ => false
  end.

Definition notna (x : scalar) : bool := negb (isnull x).

(** The truth value of [pd.isna(v)] as an [if] takes it.  For a list pandas
    answers element by element with an array, and numpy gives an array a
    truth value only when it has exactly one element; a one-element list
    that holds a list again is reported as an error here too. *)
Definition isna_truth (v : value) : option bool :=
  match v with
  | VSc x => Some (isnull x)
  | VDict _ => Some false
  | VList [VSc x] => Some (isnull x)
  | VList [VDict _] => Some false
  | VList _ => None
  end.

(** A row as [iterrows] hands it over: the labels with their cells. *)
Definition Series (A : Type) : Type := list (text * A).

(** [label in row.index] *)
Definition has_label {A} (label : text) (row : Series A) : bool :=
  existsb (fun kv => text_eqb (fst kv) label) row.

(** [row[label]] *)
Fixpoint loc {A} (label : text) (row : Series A) : option A :=
  match row with
  | [] => None
  | (k, v) :: r => if text_eqb k label then Some v else loc label r
  end.

Record DataFrame (A : Type) : Type := mkDF {
  columns : list text;
  data : list (list A)
}.

Arguments mkDF {A} columns data.
Arguments columns {A} d.
Arguments data {A} d.

(** [df.iterrows()], without the positions. *)
Definition iterrows {A} (df : DataFrame A) : list (Series A) :=
  map (combine (columns df)) (data df).

(** [c in l] for a list of labels. *)
Definition label_in (c : text) (l : list text) : bool := existsb (text_eqb c) l.

(** The labels of a list of dicts in the order in which they first appear. *)
Definition first_seen (ds : list dict) : list text :=
  fold_left
    (fun cols d =>
       fold_left
         (fun cols kv =>
            if label_in (fst kv) cols then cols else cols ++ [fst kv])
         d cols)
    ds [].

Definition row_of_dict (cols : list text) (d : dict) : list value :=
  map (fun c => match dict_get c d with Some v => v | None => VSc SNaN end)
      cols.

(** [pd.DataFrame(ds)] for a list of dicts: a column per label, an empty cell
    where a dict lacks the label. *)
Definition frame_of_dicts (ds : list dict) : DataFrame value :=
  let cols := first_seen ds in
  mkDF cols (map (row_of_dict cols) ds).

(** [df[cols]] *)
Definition select (cols : list text) (df : DataFrame value) : DataFrame value :=
  mkDF cols
    (map (fun row =>
            map (fun c => match loc c (combine (columns df) row) with
                          | Some v => v
                          | None => VSc SNaN
                          end) cols)
         (data df)).

(** The key under which [drop_duplicates] files a cell: empty cells ([None],
    NaN) all fall under one key, a text under itself.  Other values are
    compared by pandas with the equality of Python ([1 == 1.0 == True], an
    error for a dict or a list), which is not modelled: they are filed under
    their own shape. *)
Inductive dup_key : Type :=
| KNull
| KText (s : text)
| KOther (v : value).

Definition key_of (v : value) : dup_key :=
  match v with
  | VSc SNone | VSc SNaN => KNull
  | VSc (SStr s) => KText s
  | _ => KOther v
  end.

Fixpoint value_eqb (a b : value) {struct a} : bool :=
  match a, b with
  | VSc SNone, VSc SNone => true
  | VSc SNaN, VSc SNaN => true
  | VSc (SInf x), VSc (SInf y) => Bool.eqb x y
  | VSc (SBool x), VSc (SBool y) => Bool.eqb x y
  | VSc (SInt x), VSc (SInt y) => (x =? y)%Z
  | VSc (SFloat x), VSc (SFloat y) => text_eqb x y
  | VSc (SStr x), VSc (SStr y) => text_eqb x y
  | VList l, VList m =>
    (fix go (l m : list value) : bool :=
       match l, m with
       | [], [] => true
       | x :: l', y :: m' => value_eqb x y && go l' m'
       | _, _ => false
       end) l m
  | VDict d, VDict e =>
    (fix go (d e : list (text * value)) : bool :=
       match d, e with
       | [], [] => true
       | (k, x) :: d', (k', y) :: e' =>
         text_eqb k k' && value_eqb x y && go d' e'
       | _, _ => false
       end) d e
  | _, _ => false
  end.

Definition same_key (a b : dup_key) : bool :=
  match a, b with
  | KNull, KNull => true
  | KText s, KText t => text_eqb s t
  | KOther v, KOther w => value_eqb v w
  | _, _ => false
  end.

(** Rows are visited in order; a row goes when its key was seen before. *)
Fixpoint keep_first {R} (key : R -> dup_key) (seen : list dup_key)
  (rows : list R) : list R :=
  match rows with
  | [] => []
  | r :: rest =>
    if existsb (same_key (key r)) seen then keep_first key seen rest
    else r :: keep_first key (key r :: seen) rest
  end.

(** The key of a row of a frame: that of its cell under [label]. *)
Definition cell_key (label : text) (cols : list text) (row : list value)
  : dup_key :=
  match loc label (combine cols row) with
  | Some v => key_of v
  | None => KNull
  end.

(** [df.drop_duplicates(subset=[label], keep='first')] *)
Definition drop_duplicates (label : text) (df : DataFrame value)
  : DataFrame value :=
  mkDF (columns df) (keep_first (cell_key label (columns df)) [] (data df)).


(** A frame of cells as a frame of values: what [to_excel] is handed when the
    source table is written back. *)
Definition as_values (df : DataFrame scalar) : DataFrame value :=
  mkDF (columns df) (map (map VSc) (data df)).

(** A cell that looks like JSON:
    [isinstance(v, str) and (v.strip().startswith('{') or
    v.strip().startswith('['))]. *)
Definition looks_json (x : scalar) : bool :=
  match x with
  | SStr s => startswith 123 (strip s) || startswith 91 (strip s)
  | _ => false
  end.

End Py.

Import Py.

(** ** teste.py *)

Module Teste.

(** [limpar_json_invalido] of teste.py: the three substitutions. *)
Definition limpar_json_invalido (json_str : text) : text :=
  let json_str := re_sub_colon comma json_str in
  let json_str := re_sub_colon rbrace json_str in
  let json_str := re_sub_colon rbracket json_str in
  json_str.

Section Extraction.

Variable rt : runtime.

(** The display string of a code/description object,
    [f"{codigo} - {descricao}" if codigo else ''], which the source writes
    out four times (for [cbo] and [cnae], in a list and alone). *)
Definition display (par : dict) : text :=
  let codigo := dict_get_empty (txt "codigo") par in
  let descricao := dict_get_empty (txt "descricao") par in
  if truthy rt codigo
  then py_str rt codigo ++ txt " - " ++ py_str rt descricao
  else [].

(** The [resultado] built from one object of the payload. *)
Definition registro (item : dict) : dict :=
  let resultado : dict := [] in
  let resultado :=
    match dict_get (txt "cbo") item with
    | Some (VDict cbo) =>
      dict_set (txt "CBO") (VSc (SStr (display cbo))) resultado
    | _ => resultado
    end in
  let resultado :=
    match dict_get (txt "cnae") item with
    | Some (VDict cnae) =>
      dict_set (txt "CNAE") (VSc (SStr (display cnae))) resultado
    | _ => resultado
    end in
  let resultado :=
    match dict_get (txt "nome") item with
    | Some nome => dict_set (txt "Nome") nome resultado
    | None => resultado
    end in
  let resultado :=
    match dict_get (txt "cpf") item with
    | Some cpf => dict_set (txt "CPF") (VSc (SStr (py_str rt cpf))) resultado
    | None => resultado
    end in
  let resultado :=
    match dict_get (txt "nomeEmpregador") item with
    | Some e => dict_set (txt "Empregador") e resultado
    | None => resultado
    end in
  resultado.

(** The records of the decoded value [json_obj]: one per object of a list,
    in order, or the one of a single object. *)
Definition registros_de_json_obj (json_obj : value) : list dict :=
  match json_obj with
  | VList l => map registro (only_dicts l)
  | VDict d => [registro d]
  | VSc _ => []
  end.

(** [extrair_cbo_cnae_de_json]: repair, decode, extract; any exception
    leaves the list as it is, and only the decoder can raise. *)
Definition extrair_cbo_cnae_de_json (json_str : text) : list dict :=
  let json_limpo := limpar_json_invalido (strip json_str) in
  match json_loads json_limpo with
  | Some json_obj => registros_de_json_obj json_obj
  | None => []
  end.

Definition margens_prev : text := txt "Margens Prev".

(** The inner loop over [row.items()]: the columns of the source row that go
    into every output row made from it. *)
Definition outras_colunas (row : Series scalar) : dict :=
  fold_left
    (fun linha_nova kv =>
       let (col_name, col_val) := kv : text * scalar in
       if negb (text_eqb col_name margens_prev) && notna col_val then
         if negb (looks_json col_val)
         then dict_set col_name (VSc col_val) linha_nova
         else linha_nova
       else linha_nova)
    row [].

(** The body of the loop over [df.iterrows()]: the output rows of one source
    row. *)
Definition linhas_da_linha (row : Series scalar) : list dict :=
  match loc margens_prev row with
  | Some valor =>
    if notna valor then
      match valor with
      | SStr s =>
        let valor_strip := strip s in
        if startswith 123 valor_strip || startswith 91 valor_strip then
          map (fun reg => dict_update (outras_colunas row) reg)
              (extrair_cbo_cnae_de_json valor_strip)
        else []
      | _ => []
      end
    else []
  | None => []
  end.

Definition todas_linhas (df : DataFrame scalar) : list dict :=
  flat_map linhas_da_linha (iterrows df).

(** The keys of a record, in the order in which the output wants them. *)
Definition campos_extraidos : list text :=
  [txt "Nome"; txt "CPF"; txt "CBO"; txt "CNAE"; txt "Empregador"].

Definition colunas_desejadas (cols : list text) : list text :=
  let desejadas := filter (fun c => label_in c cols) campos_extraidos in
  fold_left
    (fun acc col => if label_in col acc then acc else acc ++ [col])
    cols desejadas.

(** The frame built from the extracted rows: duplicates by name removed, then
    the columns put in order. *)
Definition montar (linhas : list dict) : DataFrame value :=
  let df_saida := frame_of_dicts linhas in
  let df_saida :=
    if label_in (txt "Nome") (columns df_saida)
    then drop_duplicates (txt "Nome") df_saida
    else df_saida in
  select (colunas_desejadas (columns df_saida)) df_saida.

(** [excel_extrair_cbo_cnae]: the frame handed to [to_excel] and the pair the
    function returns. *)
Definition excel_extrair_cbo_cnae (df : DataFrame scalar)
  : DataFrame value * (nat * nat) :=
  let todas := todas_linhas df in
  match todas with
  | [] => (as_values df, (length (data df), length (columns df)))
  | _ :: _ =>
    let df_saida := montar todas in
    (df_saida, (length todas, length (columns df_saida)))
  end.

End Extraction.

End Teste.

(** ** processar_propostas.py *)

Module Propostas.

(** [limpar_json_invalido] of processar_propostas.py: the three substitutions,
    then NUL characters are removed. *)
Definition limpar_json_invalido (json_str : text) : text :=
  let s := json_str in
  let s := re_sub_colon comma s in
  let s := re_sub_colon rbrace s in
  let s := re_sub_colon rbracket s in
  let s := remove_nul s in
  s.

(** [safe_load_json]: the raw text first, the repaired text next, [None]
    last. *)
Definition safe_load_json (s : text) : value :=
  match json_loads s with
  | Some v => v
  | None =>
    let s2 := limpar_json_invalido s in
    match json_loads s2 with
    | Some v => v
    | None => VSc SNone
    end
  end.

(** The end of [extrair_registros_de_margens]: the records of the value
    [parsed]. *)
Definition registros_de_parsed (parsed : value) : list dict :=
  match parsed with
  | VSc SNone => []
  | VDict d => [d]
  | VList l => only_dicts l
  | VSc _ => []
  end.

(** [extrair_registros_de_margens]; [None] stands for the [ValueError] that
    the truth value of an array raises. *)
Definition extrair_registros_de_margens (margens_val : value)
  : option (list dict) :=
  match isna_truth margens_val with
  | None => None
  | Some true => Some []
  | Some false =>
    let parsed :=
      match margens_val with
      | VList _ | VDict _ => margens_val
      | VSc (SStr s) => safe_load_json (strip s)
      | VSc _ => VSc SNone
      end in
    Some (registros_de_parsed parsed)
  end.

Definition margens_prev : text := txt "Margens Prev".

Definition campos : list text :=
  [txt "nome"; txt "cpf"; txt "nomeEmpregador"; txt "valorMargemDisponivel";
   txt "valorBaseMargem"].

(** [mapear_linha], in the order of its steps.  The labels of a row are
    distinct (pandas renames repeated headers when it reads a file), so
    [row[col]] is the cell that stands with [col]. *)

(** The loop over [row.index]: the top-level columns. *)
Definition colunas_top_level (row : Series scalar) : dict :=
  fold_left
    (fun out kv =>
       let (col, val) := kv : text * scalar in
       if text_eqb col margens_prev then out
       else if notna val then dict_set col (VSc val) out else out)
    row [].

(** [item.get(k) if isinstance(item.get(k), dict) else None] *)
Definition sub_objeto (k : text) (margem_item : dict) : option dict :=
  match dict_get_none k margem_item with
  | VDict d => Some d
  | _ => None
  end.

(** [if par: out[k_codigo] = par.get('codigo');
    out[k_descricao] = par.get('descricao')]; an empty dict is false. *)
Definition com_par (k_codigo k_descricao : text) (par : option dict)
  (out : dict) : dict :=
  match par with
  | Some ((_ :: _) as par) =>
    let out := dict_set k_codigo (dict_get_none (txt "codigo") par) out in
    dict_set k_descricao (dict_get_none (txt "descricao") par) out
  | _ => out
  end.

(** The loop over the other fields of the item. *)
Definition com_campos (margem_item : dict) (out : dict) : dict :=
  fold_left
    (fun out k =>
       if dict_in k margem_item
       then dict_set (txt "MargensPrev_" ++ k) (dict_get_none k margem_item) out
       else out)
    campos out.

Definition mapear_linha (row : Series scalar) (margem_item : dict) : dict :=
  let out := colunas_top_level row in
  let cbo := sub_objeto (txt "cbo") margem_item in
  let cnae := sub_objeto (txt "cnae") margem_item in
  let out :=
    com_par (txt "MargensPrev_CBO_Codigo") (txt "MargensPrev_CBO_Descricao")
            cbo out in
  let out :=
    com_par (txt "MargensPrev_CNAE_Codigo") (txt "MargensPrev_CNAE_Descricao")
            cnae out in
  com_campos margem_item out.

(** [extrair_motivo_inelegibilidade] *)
Definition extrair_motivo_inelegibilidade (val : value)
  : option (value * value) :=
  match isna_truth val with
  | None => None
  | Some true => Some (VSc SNone, VSc SNone)
  | Some false =>
    match val with
    | VSc (SStr s) =>
      match safe_load_json (strip s) with
      | VDict parsed =>
        Some (dict_get_none (txt "codigo") parsed,
              dict_get_none (txt "descricao") parsed)
      | _ => Some (VSc SNone, VSc SNone)
      end
    | VDict d =>
      Some (dict_get_none (txt "codigo") d, dict_get_none (txt "descricao") d)
    | _ => Some (VSc SNone, VSc SNone)
    end
  end.

Definition is_none (v : value) : bool :=
  match v with VSc SNone => true | _ => false end.

Definition candidatas_margens : list text :=
  [txt "Margens Prev"; txt "MargensPrev"; txt "Margens_Prev"].

Definition candidatas_motivo : list text :=
  [txt "Motivo Inelegibilidade"; txt "MotivoInelegibilidade"; txt "Motivo"].

(** The first candidate that is a label of the row. *)
Definition primeira (candidatas : list text) (row : Series scalar)
  : option text :=
  find (fun candidate => has_label candidate row) candidatas.

(** [row[col]] for a label known to be there. *)
Definition celula (col : text) (row : Series scalar) : scalar :=
  match loc col row with Some v => v | None => SNone end.

(** The two eligibility fields, written when either is not [None]. *)
Definition com_motivo (motivo_codigo motivo_desc : value) (mapped : dict)
  : dict :=
  if negb (is_none motivo_codigo) || negb (is_none motivo_desc) then
    let mapped :=
      dict_set (txt "MotivoInelegibilidade_Codigo") motivo_codigo mapped in
    dict_set (txt "MotivoInelegibilidade_Descricao") motivo_desc mapped
  else mapped.

(** The row kept when the payload gave no record. *)
Definition sem_margem (row : Series scalar) : dict :=
  fold_left
    (fun out kv =>
       let (col, val) := kv : text * scalar in
       if notna val && negb (looks_json val)
       then dict_set col (VSc val) out
       else out)
    row [].

(** [margem_val]: the cell under the first accepted header of the payload
    column, [None] when the row has none of them. *)
Definition margem_da_linha (row : Series scalar) : scalar :=
  match primeira candidatas_margens row with
  | Some col_margens => celula col_margens row
  | None => SNone
  end.

(** [motivo_codigo, motivo_desc]: decoded from the cell under the first
    accepted header of the eligibility column, both [None] without one. *)
Definition motivo_da_linha (row : Series scalar) : option (value * value) :=
  match primeira candidatas_motivo row with
  | Some candidate =>
    extrair_motivo_inelegibilidade (VSc (celula candidate row))
  | None => Some (VSc SNone, VSc SNone)
  end.

(** The body of the loop over [df.iterrows()]. *)
Definition processar_linha (row : Series scalar) : option (list dict) :=
  match extrair_registros_de_margens (VSc (margem_da_linha row)) with
  | None => None
  | Some registros =>
    match motivo_da_linha row with
    | None => None
    | Some (motivo_codigo, motivo_desc) =>
      match registros with
      | _ :: _ =>
        Some (map (fun reg =>
                     let mapped := mapear_linha row reg in
                     com_motivo motivo_codigo motivo_desc mapped)
                  registros)
      | [] =>
        let out := com_motivo motivo_codigo motivo_desc (sem_margem row) in
        match out with
        | [] => Some []
        | _ :: _ => Some [out]
        end
      end
    end
  end.

Fixpoint linhas_saida (rows : list (Series scalar)) : option (list dict) :=
  match rows with
  | [] => Some []
  | row :: rest =>
    match processar_linha row with
    | None => None
    | Some novas =>
      match linhas_saida rest with
      | None => None
      | Some outras => Some (novas ++ outras)
      end
    end
  end.

Definition prioridade : list text :=
  [txt "Parceiro"; txt "Data de abertura da proposta";
   txt "N" ++ [195; 186] ++ txt "mero da Proposta"; txt "Status da Proposta";
   txt "Nome do Usu" ++ [195; 161] ++ txt "rio";
   txt "CPF do Usu" ++ [195; 161] ++ txt "rio";
   txt "MargensPrev_CBO_Codigo"; txt "MargensPrev_CBO_Descricao";
   txt "MargensPrev_CNAE_Codigo"; txt "MargensPrev_CNAE_Descricao";
   txt "MotivoInelegibilidade_Codigo"; txt "MotivoInelegibilidade_Descricao"].

(** The message printed when nothing was extracted. *)
Definition nenhum_registro : text :=
  txt "Nenhum registro extra" ++ [237] ++ txt "do " ++ [8212]
  ++ txt " salvando c" ++ [243] ++ txt "pia do original.".

(** What a run leaves behind: the frame handed to [to_excel] and the lines
    printed. *)
Record saida : Type := {
  escrito : DataFrame value;
  impresso : list text
}.

Definition montar (linhas : list dict) : DataFrame value :=
  let df_out := frame_of_dicts linhas in
  let cols := filter (fun c => label_in c (columns df_out)) prioridade in
  let cols :=
    cols ++ filter (fun c => negb (label_in c cols)) (columns df_out) in
  select cols df_out.

(** [processar_arquivo] once the file has been read. *)
Definition processar_arquivo (df : DataFrame scalar) : option saida :=
  match linhas_saida (iterrows df) with
  | None => None
  | Some [] =>
    Some {| escrito := as_values df; impresso := [nenhum_registro] |}
  | Some ((_ :: _) as linhas) =>
    Some {| escrito := montar linhas; impresso := [] |}
  end.

End Propostas.

(** ** Vocabulary of the statements *)

(** [\s*D] matches at the head of [r], the text after a colon. *)
Definition casa_b (d : char) (r : text) : bool :=
  match casa d r with Some _ => true | None => false end.

(** Some position of [s] at which [:\s*D] matches. *)
Fixpoint has_match (d : char) (s : text) : bool :=
  match s with
  | [] => false
  | c :: r => ((c =? colon) && casa_b d r) || has_match d r
  end.

(** The three delimiters of the repairer. *)
Definition delim (d : char) : Prop := d = comma \/ d = rbrace \/ d = rbracket.

(** [rest] is what is left of [s] after a prefix without NUL. *)
Definition eats (s rest : text) : Prop :=
  exists pre, s = pre ++ rest /\ ~ In 0 pre.

(** The same, the prefix being non-empty. *)
Definition eats1 (s rest : text) : Prop :=
  eats s rest /\ (length rest < length s)%nat.

(** What a result of the decoder says about the text [s] it was given: a
    value comes with a rest of [s] behind a non-empty prefix without NUL,
    and the step budget did not run out. *)
Definition sound (s : text) (r : res value) : Prop :=
  match r with
  | Val _ rest => eats1 s rest
  | Bad => True
  | Out => False
  end.

(** A cell that may be copied as it is: present and not JSON-like. *)
Definition plain (x : scalar) : Prop := notna x = true /\ looks_json x = false.

(** The cells each copying loop accepts. *)
Definition keep_teste (col : text) (val : scalar) : bool :=
  negb (text_eqb col Teste.margens_prev) && notna val && negb (looks_json val).

Definition keep_top_level (col : text) (val : scalar) : bool :=
  negb (text_eqb col Propostas.margens_prev) && notna val.

Definition keep_sem_margem (col : text) (val : scalar) : bool :=
  notna val && negb (looks_json val).

(** The keys that [mapear_linha] and [processar_arquivo] write besides the
    top-level columns. *)
Definition chaves_escritas : list text :=
  [txt "MargensPrev_CBO_Codigo"; txt "MargensPrev_CBO_Descricao";
   txt "MargensPrev_CNAE_Codigo"; txt "MargensPrev_CNAE_Descricao"]
  ++ map (app (txt "MargensPrev_")) Propostas.campos
  ++ [txt "MotivoInelegibilidade_Codigo";
      txt "MotivoInelegibilidade_Descricao"].



(** A key of a JSON object written without escapes and without a colon. *)
Definition plain_key (k : text) : Prop :=
  Forall (fun c => 32 <= c /\ c <> 34 /\ c <> 92 /\ c <> 58) k.

(** The text of the object with the single key [k] and, in place of its
    value, the whitespace [ws]. *)
Definition empty_slot (k ws : text) : text :=
  123 :: 34 :: k ++ 34 :: 58 :: ws ++ [125].

(** * Properties *)

(** ** The substitutions of the repairer *)

Section Substitution.

Lemma lstrip_length (s : text) : (length (lstrip s) <= length s)%nat.
Proof.
  induction s as [|c r IH]; simpl; [lia|].
  destruct (isspace c); simpl; lia.
Qed.

Lemma casa_length (d : char) (r r' : text) :
  casa d r = Some r' -> (length r' < length r)%nat.
Proof.
  unfold casa. intros H.
  pose proof (lstrip_length r) as L.
  destruct (lstrip r) as [|c t]; [discriminate|].
  destruct (c =? d); [|discriminate].
  injection H as <-. simpl in L. lia.
Qed.

Lemma re_sub_go_enough (d : char) (n : nat) :
  forall (m : nat) (s : text),
    (length s <= n)%nat -> (length s <= m)%nat ->
    re_sub_go n d s = re_sub_go m d s.
Proof.
  induction n as [|n IH]; intros m s Hn Hm.
  - destruct s; [|simpl in Hn; lia]. destruct m; reflexivity.
  - destruct s as [|c r]; [destruct m; reflexivity|].
    destruct m as [|m]; [simpl in Hm; lia|].
    simpl in Hn, Hm. simpl.
    destruct (c =? colon).
    + destruct (casa d r) as [r'|] eqn:E.
      * apply casa_length in E.
        rewrite (IH m r') by lia. reflexivity.
      * rewrite (IH m r) by lia. reflexivity.
    + rewrite (IH m r) by lia. reflexivity.
Qed.

(** The equations [re.sub] satisfies, free of the step budget. *)
Lemma re_sub_colon_nil (d : char) : re_sub_colon d [] = [].
Proof. reflexivity. Qed.

Lemma re_sub_colon_cons (d c : char) (r : text) :
  re_sub_colon d (c :: r) =
  if c =? colon then
    match casa d r with
    | Some r' => colon :: null_lit ++ d :: re_sub_colon d r'
    | None => c :: re_sub_colon d r
    end
  else c :: re_sub_colon d r.
Proof.
  unfold re_sub_colon. simpl.
  destruct (c =? colon).
  - destruct (casa d r) as [r'|] eqn:E; [|reflexivity].
    apply casa_length in E.
    rewrite (re_sub_go_enough d (length r) (length r') r') by lia.
    reflexivity.
  - reflexivity.
Qed.

Lemma casa_b_head (d : char) (r : text) :
  casa_b d r = match hd_error (lstrip r) with
               | Some c => c =? d
               | None => false
               end.
Proof.
  unfold casa_b, casa. destruct (lstrip r) as [|c t]; simpl; [reflexivity|].
  destruct (c =? d); reflexivity.
Qed.

(** Substituting does not change the first character after leading
    whitespace. *)
Lemma lstrip_head_re_sub (d : char) (r : text) :
  hd_error (lstrip (re_sub_colon d r)) = hd_error (lstrip r).
Proof.
  induction r as [|c r IH]; [reflexivity|].
  rewrite re_sub_colon_cons.
  destruct (N.eqb_spec c colon) as [-> | Hc].
  - destruct (casa d r); reflexivity.
  - simpl. destruct (isspace c); [exact IH|reflexivity].
Qed.

Lemma casa_b_re_sub (d d' : char) (r : text) :
  casa_b d' (re_sub_colon d r) = casa_b d' r.
Proof. rewrite !casa_b_head, lstrip_head_re_sub. reflexivity. Qed.

Lemma no_match_fixed (d : char) (s : text) :
  has_match d s = false -> re_sub_colon d s = s.
Proof.
  induction s as [|c r IH]; intros H; [reflexivity|].
  simpl in H. apply orb_false_elim in H as [H1 H2].
  rewrite re_sub_colon_cons, (IH H2).
  destruct (c =? colon); [|reflexivity].
  simpl in H1. unfold casa_b in H1.
  destruct (casa d r); [discriminate|reflexivity].
Qed.

Lemma has_match_lstrip (d : char) (r : text) :
  has_match d r = false -> has_match d (lstrip r) = false.
Proof.
  induction r as [|c r IH]; intros H; [reflexivity|].
  simpl. destruct (isspace c); [|exact H].
  simpl in H. apply orb_false_elim in H as [_ H]. auto.
Qed.

Lemma has_match_casa (d d' : char) (r r' : text) :
  has_match d' r = false -> casa d r = Some r' -> has_match d' r' = false.
Proof.
  intros H E. apply has_match_lstrip in H. unfold casa in E.
  destruct (lstrip r) as [|c t]; [discriminate|].
  destruct (c =? d); [|discriminate]. injection E as <-.
  simpl in H. apply orb_false_elim in H as [_ H]. exact H.
Qed.

(** The replacement [:nullD] followed by text without a match has none. *)
Lemma has_match_replacement (d d' : char) (t : text) :
  delim d -> delim d' -> has_match d' t = false ->
  has_match d' (colon :: null_lit ++ d :: t) = false.
Proof.
  intros Hd Hd' Ht.
  destruct Hd as [-> | [-> | ->]], Hd' as [-> | [-> | ->]]; simpl; exact Ht.
Qed.

(** After [re.sub] no match of its pattern is left. *)
Lemma re_sub_no_match (d : char) (n : nat) :
  delim d ->
  forall s : text,
    (length s <= n)%nat -> has_match d (re_sub_colon d s) = false.
Proof.
  intros Hd. induction n as [|n IH]; intros s Hn.
  - destruct s; [reflexivity|simpl in Hn; lia].
  - destruct s as [|c r]; [reflexivity|]. simpl in Hn.
    rewrite re_sub_colon_cons.
    destruct (N.eqb_spec c colon) as [-> | Hc].
    + destruct (casa d r) as [r'|] eqn:E.
      * apply has_match_replacement; auto.
        apply IH. apply casa_length in E. lia.
      * simpl. rewrite casa_b_re_sub. unfold casa_b. rewrite E.
        simpl. apply IH. lia.
    + simpl. apply N.eqb_neq in Hc. rewrite Hc. simpl. apply IH. lia.
Qed.

(** [re.sub] for one delimiter creates no match for another. *)
Lemma re_sub_keeps_no_match (d d' : char) (n : nat) :
  delim d -> delim d' ->
  forall s : text,
    (length s <= n)%nat -> has_match d' s = false ->
    has_match d' (re_sub_colon d s) = false.
Proof.
  intros Hd Hd'. induction n as [|n IH]; intros s Hn H.
  - destruct s; [reflexivity|simpl in Hn; lia].
  - destruct s as [|c r]; [reflexivity|]. simpl in Hn.
    simpl in H. apply orb_false_elim in H as [H1 H2].
    rewrite re_sub_colon_cons.
    destruct (N.eqb_spec c colon) as [-> | Hc].
    + destruct (casa d r) as [r'|] eqn:E.
      * apply has_match_replacement; auto.
        apply IH; [apply casa_length in E; lia|].
        eapply has_match_casa; eauto.
      * simpl. rewrite casa_b_re_sub. simpl in H1. rewrite H1.
        simpl. apply IH; [lia|exact H2].
    + simpl. apply N.eqb_neq in Hc. rewrite Hc. simpl.
      apply IH; [lia|exact H2].
Qed.

Lemma lstrip_nul_free (t : text) : ~ In 0 t -> ~ In 0 (lstrip t).
Proof.
  induction t as [|x t IHt]; intros Ht; [exact Ht|].
  simpl. destruct (isspace x); [|exact Ht].
  apply IHt. intros Hin. apply Ht. right. exact Hin.
Qed.

Lemma casa_nul_free (d : char) (r r' : text) :
  ~ In 0 r -> casa d r = Some r' -> ~ In 0 r'.
Proof.
  intros Hr E. apply lstrip_nul_free in Hr. unfold casa in E.
  destruct (lstrip r) as [|x t]; [discriminate|].
  destruct (x =? d); [|discriminate]. injection E as <-.
  intros Hin. apply Hr. right. exact Hin.
Qed.

Lemma re_sub_keeps_nul_free (d : char) (n : nat) :
  delim d ->
  forall s : text,
    (length s <= n)%nat -> ~ In 0 s -> ~ In 0 (re_sub_colon d s).
Proof.
  intros Hd. induction n as [|n IH]; intros s Hn H.
  - destruct s; [exact H|simpl in Hn; lia].
  - destruct s as [|c r]; [exact H|]. simpl in Hn.
    assert (Hc : c <> 0) by (intros ->; apply H; left; reflexivity).
    assert (Hr : ~ In 0 r) by (intros Hin; apply H; right; exact Hin).
    rewrite re_sub_colon_cons.
    destruct (c =? colon).
    + destruct (casa d r) as [r'|] eqn:E.
      * pose proof (casa_nul_free d r r' Hr E) as Hr'.
        apply casa_length in E.
        pose proof (IH r' ltac:(lia) Hr') as IH'.
        destruct Hd as [-> | [-> | ->]]; simpl;
          intros [F|[F|[F|[F|[F|[F|F]]]]]];
          try discriminate; apply IH'; exact F.
      * intros [F|F]; [congruence|]. revert F. apply IH; [lia|exact Hr].
    + intros [F|F]; [congruence|]. revert F. apply IH; [lia|exact Hr].
Qed.

Lemma remove_nul_fixed (s : text) : ~ In 0 s -> remove_nul s = s.
Proof.
  induction s as [|c r IH]; intros H; [reflexivity|].
  unfold remove_nul in *. simpl.
  destruct (N.eqb_spec c 0) as [-> | Hc].
  - exfalso. apply H. left. reflexivity.
  - simpl. f_equal. apply IH. intros Hin. apply H. right. exact Hin.
Qed.

End Substitution.

(** ** The decoder *)

Section Decoder.

Lemma eats_refl (s : text) : eats s s.
Proof. exists []. split; [reflexivity|intros []]. Qed.

Lemma eats_trans (a b c : text) : eats a b -> eats b c -> eats a c.
Proof.
  intros (p & -> & Hp) (q & -> & Hq). exists (p ++ q).
  split; [apply app_assoc|].
  intros H. apply in_app_or in H as [H | H]; auto.
Qed.

Lemma eats_length (s rest : text) :
  eats s rest -> (length rest <= length s)%nat.
Proof. intros (p & -> & _). rewrite length_app. lia. Qed.

Lemma eats_cons (c : char) (r rest : text) :
  c <> 0 -> eats r rest -> eats1 (c :: r) rest.
Proof.
  intros Hc H. split.
  - destruct H as (p & -> & Hp). exists (c :: p). split; [reflexivity|].
    intros [E | Hin]; [congruence|auto].
  - apply eats_length in H. simpl. lia.
Qed.

Lemma eats1_eats (s rest : text) : eats1 s rest -> eats s rest.
Proof. intros [H _]. exact H. Qed.

Lemma eats1_trans_l (a b c : text) : eats1 a b -> eats b c -> eats1 a c.
Proof.
  intros [H1 L1] H2. split; [eapply eats_trans; eauto|].
  apply eats_length in H2. lia.
Qed.

Lemma eats1_trans_r (a b c : text) : eats a b -> eats1 b c -> eats1 a c.
Proof.
  intros H1 [H2 L2]. split; [eapply eats_trans; eauto|].
  apply eats_length in H1. lia.
Qed.

Lemma eats_tl (c : char) (s : text) : startswith c s = true -> c <> 0 ->
  eats1 s (tl s).
Proof.
  destruct s as [|x r]; simpl; [discriminate|].
  intros H Hc. apply N.eqb_eq in H. subst x.
  apply eats_cons; [exact Hc|apply eats_refl].
Qed.

Lemma skip_ws_eats (s : text) : eats s (skip_ws s).
Proof.
  induction s as [|c r IH]; simpl; [apply eats_refl|].
  destruct (json_ws c) eqn:W; [|apply eats_refl].
  apply eats1_eats, eats_cons; [|exact IH].
  intros ->. discriminate W.
Qed.

Lemma skip_ws_nil_nul_free (s : text) : skip_ws s = [] -> ~ In 0 s.
Proof.
  intros H. destruct (skip_ws_eats s) as (p & E & Hp).
  rewrite H, app_nil_r in E. subst p. exact Hp.
Qed.

Lemma digits_eats (s : text) :
  forall ds rest, digits s = (ds, rest) ->
    eats s rest /\ (ds <> [] -> (length rest < length s)%nat).
Proof.
  induction s as [|c r IH]; simpl; intros ds rest H.
  - injection H as <- <-. split; [apply eats_refl|congruence].
  - destruct (is_digit c) eqn:D.
    + destruct (digits r) as [ds' rest'] eqn:E. injection H as <- <-.
      destruct (IH _ _ eq_refl) as [H1 _].
      assert (Hc : c <> 0) by (intros ->; discriminate D).
      destruct (eats_cons c r rest' Hc H1) as [H2 L]. split; auto.
    + injection H as <- <-. split; [apply eats_refl|congruence].
Qed.

Lemma literal_eats (lit : text) :
  ~ In 0 lit -> lit <> [] ->
  forall s rest, literal lit s = Some rest -> eats1 s rest.
Proof.
  intros Hl Hne s rest H.
  assert (G : forall l s, literal l s = Some rest -> s = l ++ rest).
  { induction l as [|a l IH]; intros t Ht; simpl in Ht.
    - injection Ht as <-. reflexivity.
    - destruct t as [|b t]; [discriminate|].
      destruct (N.eqb_spec a b) as [-> | ]; [|discriminate].
      simpl. f_equal. apply IH. exact Ht. }
  apply G in H. subst s. split.
  - exists lit. split; [reflexivity|exact Hl].
  - rewrite length_app. destruct lit; [congruence|simpl; lia].
Qed.

Lemma hex_digit_nonzero (c : char) (x : N) : hex_digit c = Some x -> c <> 0.
Proof. intros H ->. discriminate H. Qed.

Lemma hex4_nonzero (a b c d : char) (x : N) :
  hex4 a b c d = Some x -> a <> 0 /\ b <> 0 /\ c <> 0 /\ d <> 0.
Proof.
  unfold hex4. intros H.
  destruct (hex_digit a) eqn:Ha; [|discriminate].
  destruct (hex_digit b) eqn:Hb; [|discriminate].
  destruct (hex_digit c) eqn:Hc; [|discriminate].
  destruct (hex_digit d) eqn:Hd; [|discriminate].
  repeat split; eapply hex_digit_nonzero; eauto.
Qed.

Lemma scanstring_eats (n : nat) :
  forall s acc str rest,
    (length s <= n)%nat -> scanstring s acc = Some (str, rest) -> eats1 s rest.
Proof.
  induction n as [|n IH]; intros s acc str rest Hn H.
  - destruct s; [discriminate H|simpl in Hn; lia].
  - destruct s as [|c r]; [discriminate H|]. simpl in Hn.
    cbn [scanstring] in H.
    destruct (N.eqb_spec c 34) as [-> | H34].
    { injection H as _ <-. apply eats_cons; [discriminate|apply eats_refl]. }
    destruct (N.eqb_spec c 92) as [-> | H92].
    2:{ destruct (N.leb_spec c 31) as [|H31]; [discriminate|].
        apply eats_cons; [lia|].
        apply eats1_eats. apply (IH r (c :: acc) str rest); [lia|exact H]. }
    destruct r as [|e r1]; [discriminate|]. simpl in Hn.
    destruct (N.eqb_spec e 117) as [-> | H117].
    2:{ destruct (backslash e) as [x|] eqn:B; [|discriminate].
        assert (He : e <> 0) by (intros ->; discriminate B).
        apply eats_cons; [discriminate|].
        apply eats1_eats, eats_cons; [exact He|].
        apply eats1_eats. apply (IH r1 (x :: acc) str rest); [lia|exact H]. }
    destruct r1 as [|h1 [|h2 [|h3 [|h4 r2]]]]; try discriminate.
    simpl in Hn.
    destruct (hex4 h1 h2 h3 h4) as [uni|] eqn:X; [|discriminate].
    apply hex4_nonzero in X as (N1 & N2 & N3 & N4).
    assert (Pre : forall t,
               eats r2 t ->
               eats1 (92 :: 117 :: h1 :: h2 :: h3 :: h4 :: r2) t).
    { intros t Ht. apply eats_cons; [discriminate|].
      do 5 (apply eats1_eats, eats_cons; [assumption || discriminate|]).
      exact Ht. }
    assert (Plain : scanstring r2 (uni :: acc) = Some (str, rest) ->
                    eats1 (92 :: 117 :: h1 :: h2 :: h3 :: h4 :: r2) rest).
    { intros K. apply Pre, eats1_eats.
      apply (IH r2 (uni :: acc) str rest); [lia|exact K]. }
    destruct r2 as [|b [|u [|l1 [|l2 [|l3 [|l4 r3]]]]]];
      try (apply Plain; exact H).
    destruct (high_surrogate uni && (b =? 92) && (u =? 117)) eqn:S;
      [|apply Plain; exact H].
    destruct (hex4 l1 l2 l3 l4) as [uni2|] eqn:Y; [|discriminate].
    destruct (low_surrogate uni2); [|apply Plain; exact H].
    apply andb_prop in S as [S Su]. apply andb_prop in S as [_ Sb].
    apply N.eqb_eq in Su, Sb. subst b u.
    apply hex4_nonzero in Y as (M1 & M2 & M3 & M4).
    apply Pre.
    apply eats1_eats, eats_cons; [discriminate|].
    do 5 (apply eats1_eats, eats_cons; [assumption || discriminate|]).
    apply eats1_eats. simpl in Hn.
    eapply IH; [|exact H]. lia.
Qed.

Lemma integer_part_eats (s integer rest : text) :
  integer_part s = Some (integer, rest) -> eats1 s rest.
Proof.
  assert (G : forall t i r,
             match t with
             | c :: r =>
               if c =? 48 then Some (i ++ [c], r)
               else if is_digit c then
                 let (ds, rest) := digits r in Some (i ++ c :: ds, rest)
               else None
             | [] => None
             end = Some (integer, r) -> eats1 t r).
  { intros [|c r] i r0 K; [discriminate|].
    destruct (N.eqb_spec c 48) as [-> | H48].
    - injection K as _ <-. apply eats_cons; [discriminate|apply eats_refl].
    - destruct (is_digit c) eqn:D; [|discriminate].
      destruct (digits r) as [ds rest'] eqn:E. injection K as _ <-.
      apply eats_cons; [intros ->; discriminate D|].
      apply (digits_eats r ds rest' E). }
  unfold integer_part. intros H.
  destruct s as [|c r]; [discriminate|].
  destruct (N.eqb_spec c 45) as [-> | H45].
  - apply eats_cons; [discriminate|].
    apply eats1_eats. eapply G. exact H.
  - eapply G. exact H.
Qed.

Lemma frac_part_eats (s frac rest : text) :
  frac_part s = (frac, rest) -> eats s rest.
Proof.
  unfold frac_part. intros H.
  destruct s as [|c r]; [injection H as _ <-; apply eats_refl|].
  destruct (N.eqb_spec c 46) as [-> | H46];
    [|injection H as _ <-; apply eats_refl].
  destruct (digits r) as [[|d ds] rest'] eqn:E;
    injection H as _ <-; [apply eats_refl|].
  apply eats1_eats, eats_cons; [discriminate|].
  apply (digits_eats r _ rest' E).
Qed.

Lemma exp_part_eats (s exp rest : text) :
  exp_part s = (exp, rest) -> eats s rest.
Proof.
  unfold exp_part. intros H.
  destruct s as [|c r]; [injection H as _ <-; apply eats_refl|].
  destruct ((c =? 101) || (c =? 69)) eqn:Ec;
    [|injection H as _ <-; apply eats_refl].
  assert (Hc : c <> 0) by (intros ->; discriminate Ec).
  destruct r as [|g r'].
  - simpl in H. injection H as _ <-. apply eats_refl.
  - destruct ((g =? 45) || (g =? 43)) eqn:Eg.
    + destruct (digits r') as [[|d ds] rest'] eqn:E;
        injection H as _ <-; [apply eats_refl|].
      apply eats1_eats, eats_cons; [exact Hc|].
      apply eats1_eats, eats_cons; [intros ->; discriminate Eg|].
      apply (digits_eats r' _ rest' E).
    + destruct (digits (g :: r')) as [[|d ds] rest'] eqn:E;
        injection H as _ <-; [apply eats_refl|].
      apply eats1_eats, eats_cons; [exact Hc|].
      apply (digits_eats (g :: r') _ rest' E).
Qed.

Lemma match_number_eats (s : text) (x : scalar) (rest : text) :
  match_number s = Some (x, rest) -> eats1 s rest.
Proof.
  unfold match_number. intros H.
  destruct (integer_part s) as [[integer r1]|] eqn:I; [|discriminate].
  destruct (frac_part r1) as [frac r2] eqn:F.
  destruct (exp_part r2) as [exp r3] eqn:E.
  assert (K : rest = r3).
  { destruct frac, exp; try (injection H as _ <-; reflexivity).
    destruct (startswith 45 integer); injection H as _ <-; reflexivity. }
  subst rest.
  eapply eats1_trans_l; [eapply integer_part_eats; exact I|].
  eapply eats_trans; [eapply frac_part_eats; exact F|].
  eapply exp_part_eats; exact E.
Qed.

Lemma decoder_sound (n : nat) :
  (forall s, (2 * length s + 1 <= n)%nat -> sound s (scan_once n s))
  /\ (forall s pairs,
        (2 * length s + 1 <= n)%nat -> sound s (object_loop n s pairs))
  /\ (forall s values,
        (2 * length s + 2 <= n)%nat -> sound s (array_loop n s values)).
Proof.
  induction n as [|n (IHs & IHo & IHa)].
  { repeat split; intros; lia. }
  split; [|split].
  - (* scan_once *)
    intros s Hn. destruct s as [|c r]; [exact I|]. simpl in Hn.
    cbn [scan_once].
    destruct (N.eqb_spec c 34) as [-> | H34].
    { destruct (scanstring r []) as [[str rest]|] eqn:E; [|exact I].
      apply eats_cons; [discriminate|].
      apply eats1_eats. eapply scanstring_eats; [|exact E]. apply le_n. }
    destruct (N.eqb_spec c 123) as [-> | H123].
    { pose proof (skip_ws_eats r) as W. cbv zeta.
      destruct (startswith 125 (skip_ws r)) eqn:S1.
      { apply eats_cons; [discriminate|].
        eapply eats_trans; [exact W|].
        apply eats1_eats. eapply eats_tl; [exact S1|discriminate]. }
      destruct (startswith 34 (skip_ws r)) eqn:S2; [|exact I].
      pose proof (eats_tl 34 _ S2 ltac:(discriminate)) as T.
      assert (L : (2 * length (tl (skip_ws r)) + 1 <= n)%nat).
      { destruct T as [_ T]. apply eats_length in W. lia. }
      specialize (IHo (tl (skip_ws r)) [] L).
      destruct (object_loop n (tl (skip_ws r)) []); simpl in *; auto.
      apply eats_cons; [discriminate|].
      eapply eats_trans; [exact W|].
      eapply eats_trans; [apply eats1_eats; exact T|].
      apply eats1_eats. exact IHo. }
    destruct (N.eqb_spec c 91) as [-> | H91].
    { pose proof (skip_ws_eats r) as W. cbv zeta.
      destruct (startswith 93 (skip_ws r)) eqn:S1.
      { apply eats_cons; [discriminate|].
        eapply eats_trans; [exact W|].
        apply eats1_eats. eapply eats_tl; [exact S1|discriminate]. }
      assert (L : (2 * length (skip_ws r) + 2 <= n)%nat).
      { apply eats_length in W. lia. }
      specialize (IHa (skip_ws r) [] L).
      destruct (array_loop n (skip_ws r) []); simpl in *; auto.
      apply eats_cons; [discriminate|].
      eapply eats_trans; [exact W|].
      apply eats1_eats. exact IHa. }
    assert (Lit : forall lit rest,
               ~ In 0 lit -> lit <> [] ->
               literal lit (c :: r) = Some rest -> eats1 (c :: r) rest).
    { intros lit rest A B. apply literal_eats; assumption. }
    assert (NF : forall lit : string,
               Forall (fun x => x <> 0) (txt lit) -> ~ In 0 (txt lit)).
    { intros lit F Hin. rewrite Forall_forall in F.
      apply (F 0 Hin). reflexivity. }
    destruct (literal (txt "null") (c :: r)) as [rest|] eqn:L1.
    { apply (Lit _ _ (NF "null"%string ltac:(repeat constructor; discriminate))
                 ltac:(discriminate) L1). }
    destruct (literal (txt "true") (c :: r)) as [rest|] eqn:L2.
    { apply (Lit _ _ (NF "true"%string ltac:(repeat constructor; discriminate))
                 ltac:(discriminate) L2). }
    destruct (literal (txt "false") (c :: r)) as [rest|] eqn:L3.
    { apply (Lit _ _ (NF "false"%string ltac:(repeat constructor; discriminate))
                 ltac:(discriminate) L3). }
    destruct (match_number (c :: r)) as [[x rest]|] eqn:M.
    { eapply match_number_eats. exact M. }
    destruct (literal (txt "NaN") (c :: r)) as [rest|] eqn:L4.
    { apply (Lit _ _ (NF "NaN"%string ltac:(repeat constructor; discriminate))
                 ltac:(discriminate) L4). }
    destruct (literal (txt "Infinity") (c :: r)) as [rest|] eqn:L5.
    { apply (Lit _ _ (NF "Infinity"%string
                         ltac:(repeat constructor; discriminate))
                 ltac:(discriminate) L5). }
    destruct (literal (txt "-Infinity") (c :: r)) as [rest|] eqn:L6; [|exact I].
    apply (Lit _ _ (NF "-Infinity"%string
                       ltac:(repeat constructor; discriminate))
               ltac:(discriminate) L6).
  - (* object_loop *)
    intros s pairs Hn. cbn [object_loop].
    destruct (scanstring s []) as [[key r]|] eqn:E; [|exact I].
    pose proof (scanstring_eats _ s [] key r (le_n _) E) as K.
    pose proof (skip_ws_eats r) as W. cbv zeta.
    destruct (startswith 58 (skip_ws r)) eqn:S1; [|exact I].
    pose proof (eats_tl 58 _ S1 ltac:(discriminate)) as T.
    pose proof (skip_ws_eats (tl (skip_ws r))) as W2.
    assert (A : eats1 s (skip_ws (tl (skip_ws r)))).
    { eapply eats1_trans_l; [exact K|].
      eapply eats_trans; [exact W|].
      eapply eats_trans; [apply eats1_eats; exact T|exact W2]. }
    assert (L : (2 * length (skip_ws (tl (skip_ws r))) + 1 <= n)%nat).
    { destruct A as [_ A]. lia. }
    specialize (IHs _ L).
    destruct (scan_once n (skip_ws (tl (skip_ws r)))) as [v r2| |];
      simpl in IHs; auto.
    assert (B : eats1 s r2) by (eapply eats1_trans_l; [exact A|apply IHs]).
    pose proof (skip_ws_eats r2) as W3.
    destruct (startswith 125 (skip_ws r2)) eqn:S2.
    { simpl. eapply eats1_trans_l; [exact B|].
      eapply eats_trans; [exact W3|].
      apply eats1_eats. eapply eats_tl; [exact S2|discriminate]. }
    destruct (startswith 44 (skip_ws r2)) eqn:S3; [|exact I].
    pose proof (eats_tl 44 _ S3 ltac:(discriminate)) as T3.
    pose proof (skip_ws_eats (tl (skip_ws r2))) as W4.
    destruct (startswith 34 (skip_ws (tl (skip_ws r2)))) eqn:S4; [|exact I].
    pose proof (eats_tl 34 _ S4 ltac:(discriminate)) as T4.
    assert (C : eats1 s (tl (skip_ws (tl (skip_ws r2))))).
    { eapply eats1_trans_l; [exact B|].
      eapply eats_trans; [exact W3|].
      eapply eats_trans; [apply eats1_eats; exact T3|].
      eapply eats_trans; [exact W4|apply eats1_eats; exact T4]. }
    assert (L2 : (2 * length (tl (skip_ws (tl (skip_ws r2)))) + 1 <= n)%nat).
    { destruct C as [_ C]. lia. }
    specialize (IHo _ (dict_set key v pairs) L2).
    destruct (object_loop n (tl (skip_ws (tl (skip_ws r2)))) _);
      simpl in *; auto.
    eapply eats1_trans_l; [exact C|apply eats1_eats; exact IHo].
  - (* array_loop *)
    intros s values Hn. cbn [array_loop].
    specialize (IHs s ltac:(lia)).
    destruct (scan_once n s) as [v r| |]; simpl in IHs; auto.
    pose proof (skip_ws_eats r) as W. cbv zeta.
    destruct (startswith 93 (skip_ws r)) eqn:S1.
    { simpl. eapply eats1_trans_l; [exact IHs|].
      eapply eats_trans; [exact W|].
      apply eats1_eats. eapply eats_tl; [exact S1|discriminate]. }
    destruct (startswith 44 (skip_ws r)) eqn:S2; [|exact I].
    pose proof (eats_tl 44 _ S2 ltac:(discriminate)) as T.
    pose proof (skip_ws_eats (tl (skip_ws r))) as W2.
    assert (A : eats1 s (skip_ws (tl (skip_ws r)))).
    { eapply eats1_trans_l; [exact IHs|].
      eapply eats_trans; [exact W|].
      eapply eats_trans; [apply eats1_eats; exact T|exact W2]. }
    assert (L : (2 * length (skip_ws (tl (skip_ws r))) + 2 <= n)%nat).
    { destruct A as [_ A]. destruct T as [_ T].
      apply eats_length in W, W2. destruct IHs as [_ IHs]. lia. }
    specialize (IHa _ (v :: values) L).
    destruct (array_loop n (skip_ws (tl (skip_ws r))) _); simpl in *; auto.
    eapply eats1_trans_l; [exact A|apply eats1_eats; exact IHa].
Qed.

(** [json.loads] never stops for lack of steps: [None] is a decoding error. *)
Lemma json_loads_budget (s : text) : scan_once (budget s) (skip_ws s) <> Out.
Proof.
  pose proof (skip_ws_eats s) as W. apply eats_length in W.
  destruct (decoder_sound (budget s)) as (H & _ & _).
  specialize (H (skip_ws s)). unfold budget in *.
  intros E. rewrite E in H. apply H. lia.
Qed.

(** A text that [json.loads] accepts holds no NUL. *)
Lemma json_loads_nul_free (s : text) (v : value) :
  json_loads s = Some v -> ~ In 0 s.
Proof.
  unfold json_loads. intros H.
  destruct (startswith 65279 s); [discriminate|].
  pose proof (skip_ws_eats s) as W.
  destruct (decoder_sound (budget s)) as (K & _ & _).
  specialize (K (skip_ws s)).
  destruct (scan_once (budget s) (skip_ws s)) as [obj rest| |];
    try discriminate.
  destruct (skip_ws rest) eqn:R; [|discriminate].
  apply skip_ws_nil_nul_free in R.
  assert (L : (2 * length (skip_ws s) + 1 <= budget s)%nat).
  { apply eats_length in W. unfold budget. lia. }
  destruct (K L) as [(p & E & Hp) _].
  destruct W as (q & E' & Hq).
  rewrite E' at 1. rewrite E. intros Hin.
  apply in_app_or in Hin as [Hin | Hin]; [auto|].
  apply in_app_or in Hin as [Hin | Hin]; auto.
Qed.

End Decoder.

(** ** Repair *)

Section Repair.

Lemma teste_repaired_no_match (x : text) (d : char) :
  delim d -> has_match d (Teste.limpar_json_invalido x) = false.
Proof.
  intros Hd. unfold Teste.limpar_json_invalido.
  assert (Dc : delim comma) by (left; reflexivity).
  assert (Db : delim rbrace) by (right; left; reflexivity).
  assert (Dk : delim rbracket) by (right; right; reflexivity).
  set (s1 := re_sub_colon comma x).
  set (s2 := re_sub_colon rbrace s1).
  destruct Hd as [-> | [-> | ->]].
  - apply (re_sub_keeps_no_match _ _ (length s2)); auto.
    apply (re_sub_keeps_no_match _ _ (length s1)); auto.
    apply (re_sub_no_match _ (length x)); auto.
  - apply (re_sub_keeps_no_match _ _ (length s2)); auto.
    apply (re_sub_no_match _ (length s1)); auto.
  - apply (re_sub_no_match _ (length s2)); auto.
Qed.

Lemma teste_no_match_fixed (s : text) :
  (forall d, delim d -> has_match d s = false) ->
  Teste.limpar_json_invalido s = s.
Proof.
  intros H. unfold Teste.limpar_json_invalido.
  rewrite (no_match_fixed comma s) by (apply H; left; reflexivity).
  rewrite (no_match_fixed rbrace s) by (apply H; right; left; reflexivity).
  apply no_match_fixed. apply H. right; right; reflexivity.
Qed.

Lemma teste_repair_idempotent (x : text) :
  Teste.limpar_json_invalido (Teste.limpar_json_invalido x)
  = Teste.limpar_json_invalido x.
Proof.
  apply teste_no_match_fixed. intros d Hd.
  apply teste_repaired_no_match. exact Hd.
Qed.

Lemma propostas_repair_teste (x : text) :
  Propostas.limpar_json_invalido x = remove_nul (Teste.limpar_json_invalido x).
Proof. reflexivity. Qed.

Lemma teste_repair_nul_free (x : text) :
  ~ In 0 x -> ~ In 0 (Teste.limpar_json_invalido x).
Proof.
  intros H. unfold Teste.limpar_json_invalido.
  set (s1 := re_sub_colon comma x).
  set (s2 := re_sub_colon rbrace s1).
  apply (re_sub_keeps_nul_free _ (length s2));
    [right; right; reflexivity | lia |].
  apply (re_sub_keeps_nul_free _ (length s1));
    [right; left; reflexivity | lia |].
  apply (re_sub_keeps_nul_free _ (length x));
    [left; reflexivity | lia | exact H].
Qed.

(** C3, as amended: the three substitutions alone (the repair of teste.py)
    are idempotent on every text, and the repair that also strips NUL
    characters (processar_propostas.py) is idempotent on every text that
    holds no NUL character. *)
Theorem repair_idempotent (x : text) :
  Teste.limpar_json_invalido (Teste.limpar_json_invalido x)
  = Teste.limpar_json_invalido x
  /\ (~ In 0 x ->
      Propostas.limpar_json_invalido (Propostas.limpar_json_invalido x)
      = Propostas.limpar_json_invalido x).
Proof.
  split; [apply teste_repair_idempotent|].
  intros H. rewrite !propostas_repair_teste.
  pose proof (teste_repair_nul_free x H) as H1.
  rewrite (remove_nul_fixed _ H1), teste_repair_idempotent.
  apply remove_nul_fixed. exact H1.
Qed.

Lemma repair_idempotent_witness :
  ~ In 0 (js "{'a':,'b': }")
  /\ Propostas.limpar_json_invalido
       (Propostas.limpar_json_invalido (js "{'a':,'b': }"))
     = Propostas.limpar_json_invalido (js "{'a':,'b': }").
Proof.
  assert (H : ~ In 0 (js "{'a':,'b': }")).
  { simpl. intros F.
    repeat (destruct F as [F | F]; [discriminate F|]). exact F. }
  split; [exact H|].
  exact (proj2 (repair_idempotent (js "{'a':,'b': }")) H).
Defined.

(** C3 as stated fails: on a colon, a NUL and a comma the repair strips the
    NUL and leaves a colon and a comma, which a second repair rewrites to
    [:null,]. *)
Lemma repair_not_idempotent :
  ~ (forall x : text,
       Propostas.limpar_json_invalido (Propostas.limpar_json_invalido x)
       = Propostas.limpar_json_invalido x).
Proof.
  intros H. specialize (H [58; 0; 44]). vm_compute in H. discriminate H.
Qed.

End Repair.

(** ** Parsing *)

Section Parsing.

(** C2 as stated fails on its third input: no rule of the repairer touches a
    trailing comma, so [[1,2,]] stays unparseable and the parse is [None]. *)
Lemma trailing_comma_not_recovered :
  Propostas.safe_load_json (js "[1,2,]") = VSc SNone.
Proof. vm_compute. reflexivity. Qed.

(** C2, as amended: the parse (raw attempt, then repair and retry) recovers
    [{'a':,'b':1}] and [{'a': }] as objects in which [a] is null, and returns
    [None] for [[1,2,]], which the repair leaves as it is. *)
Theorem recovery_of_empty_slots :
  Propostas.safe_load_json (js "{'a':,'b':1}")
  = VDict [(txt "a", VSc SNone); (txt "b", VSc (SInt 1))]
  /\ Propostas.safe_load_json (js "{'a': }") = VDict [(txt "a", VSc SNone)]
  /\ Propostas.limpar_json_invalido (js "[1,2,]") = js "[1,2,]"
  /\ json_loads (js "[1,2,]") = None
  /\ Propostas.safe_load_json (js "[1,2,]") = VSc SNone.
Proof. repeat split; vm_compute; reflexivity. Qed.

End Parsing.

(** ** Repair and valid JSON *)

Section ValidJson.

(** C4, as amended: for every valid JSON text the parse of
    processar_propostas.py returns the value of the direct parse, the repair
    being tried only after the direct parse has failed; and the repair leaves
    a valid JSON text as it is, hence its value too, when no colon in it is
    followed by optional whitespace and then a comma, a closing brace or a
    closing bracket. *)
Theorem repair_preserves_valid_json (x : text) (v : value) :
  json_loads x = Some v ->
  Propostas.safe_load_json x = v
  /\ ((forall d, delim d -> has_match d x = false) ->
      Propostas.limpar_json_invalido x = x
      /\ json_loads (Propostas.limpar_json_invalido x) = Some v).
Proof.
  intros H. split.
  - unfold Propostas.safe_load_json. rewrite H. reflexivity.
  - intros M.
    assert (E : Propostas.limpar_json_invalido x = x).
    { rewrite propostas_repair_teste, (teste_no_match_fixed x M).
      apply remove_nul_fixed. eapply json_loads_nul_free. exact H. }
    rewrite E. split; [reflexivity|exact H].
Qed.

Lemma repair_preserves_valid_json_witness :
  let x := js "{'a': 1, 'b': [true, null], 'c': 'x:y'}" in
  Propostas.safe_load_json x
  = VDict [(txt "a", VSc (SInt 1));
           (txt "b", VList [VSc (SBool true); VSc SNone]);
           (txt "c", VSc (SStr (txt "x:y")))]
  /\ Propostas.limpar_json_invalido x = x.
Proof.
  intros x.
  assert (H : json_loads x
              = Some (VDict [(txt "a", VSc (SInt 1));
                             (txt "b", VList [VSc (SBool true); VSc SNone]);
                             (txt "c", VSc (SStr (txt "x:y")))]))
    by (vm_compute; reflexivity).
  destruct (repair_preserves_valid_json x _ H) as [P Q].
  split; [exact P|].
  apply Q. intros d [-> | [-> | ->]]; vm_compute; reflexivity.
Defined.

(** C4 as stated fails: a string of a valid JSON text may hold a colon
    followed by a comma, and the repair rewrites the inside of the string. *)
Lemma repair_alters_valid_json :
  let x := js "{'a':':,'}" in
  json_loads x = Some (VDict [(txt "a", VSc (SStr (txt ":,")))])
  /\ json_loads (Propostas.limpar_json_invalido x)
     = Some (VDict [(txt "a", VSc (SStr (txt ":null,")))])
  /\ json_loads (Teste.limpar_json_invalido x)
     = Some (VDict [(txt "a", VSc (SStr (txt ":null,")))]).
Proof. repeat split; vm_compute; reflexivity. Qed.

End ValidJson.

(** ** Extraction *)

Section ExtractionOrder.

Variable rt : runtime.

Lemma only_dicts_filter (l : list value) :
  map VDict (only_dicts l) = filter is_dict l.
Proof.
  induction l as [|v l IH]; [reflexivity|].
  destruct v as [x|m|d]; simpl; rewrite ?IH; reflexivity.
Qed.

Lemma extrair_registros_de_celula (x : scalar) :
  exists regs, Propostas.extrair_registros_de_margens (VSc x) = Some regs.
Proof.
  unfold Propostas.extrair_registros_de_margens. simpl.
  destruct (isnull x); eexists; reflexivity.
Qed.

(** C5: extraction of null is the empty sequence; extraction never fails on a
    cell; whenever the parsed payload is an array, the records are the
    elements of the array that are objects, each once and in the order of
    the array (teste.py maps each of them to its record); and so it is for
    every payload text that decodes to an array. *)
Theorem extraction_total_and_ordered :
  Propostas.extrair_registros_de_margens (VSc SNone) = Some []
  /\ Propostas.extrair_registros_de_margens (VSc SNaN) = Some []
  /\ Propostas.registros_de_parsed (VSc SNone) = []
  /\ Teste.extrair_cbo_cnae_de_json rt (txt "null") = []
  /\ (forall x : scalar,
        exists regs, Propostas.extrair_registros_de_margens (VSc x) = Some regs)
  /\ (forall l : list value,
        Propostas.registros_de_parsed (VList l) = only_dicts l
        /\ Teste.registros_de_json_obj rt (VList l)
           = map (Teste.registro rt) (only_dicts l)
        /\ map VDict (only_dicts l) = filter is_dict l)
  /\ (forall (s : text) (l : list value),
        Propostas.safe_load_json (strip s) = VList l ->
        Propostas.extrair_registros_de_margens (VSc (SStr s))
        = Some (only_dicts l))
  /\ (forall (s : text) (l : list value),
        json_loads (Teste.limpar_json_invalido (strip s)) = Some (VList l) ->
        Teste.extrair_cbo_cnae_de_json rt s
        = map (Teste.registro rt) (only_dicts l)).
Proof.
  repeat split; try reflexivity.
  - apply extrair_registros_de_celula.
  - apply only_dicts_filter.
  - intros s l H.
    unfold Propostas.extrair_registros_de_margens. simpl. rewrite H.
    reflexivity.
  - intros s l H.
    unfold Teste.extrair_cbo_cnae_de_json. rewrite H. reflexivity.
Qed.

End ExtractionOrder.

Lemma extraction_total_and_ordered_witness :
  let s := js " [{'nome':'A'}, 1, {'nome':'B'}, 'x', {'nome':'C'}] " in
  let a := [(txt "nome", VSc (SStr (txt "A")))] in
  let b := [(txt "nome", VSc (SStr (txt "B")))] in
  let c := [(txt "nome", VSc (SStr (txt "C")))] in
  Propostas.extrair_registros_de_margens (VSc (SStr s)) = Some [a; b; c]
  /\ Teste.extrair_cbo_cnae_de_json rt_exemplo s
     = [[(txt "Nome", VSc (SStr (txt "A")))];
        [(txt "Nome", VSc (SStr (txt "B")))];
        [(txt "Nome", VSc (SStr (txt "C")))]].
Proof.
  intros s a b c.
  pose (l := [VDict a; VSc (SInt 1); VDict b; VSc (SStr (txt "x")); VDict c]).
  destruct (extraction_total_and_ordered rt_exemplo)
    as (_ & _ & _ & _ & _ & _ & P & T).
  split.
  - rewrite (P s l); [reflexivity|vm_compute; reflexivity].
  - rewrite (T s l); [reflexivity|vm_compute; reflexivity].
Defined.

(** ** Display strings (teste.py) *)

Section Display.

Variable rt : runtime.

Lemma text_eqb_spec (a b : text) : reflect (a = b) (text_eqb a b).
Proof.
  revert b. induction a as [|x a IH]; intros [|y b]; simpl;
    try (constructor; congruence).
  destruct (N.eqb_spec x y) as [-> | Hxy]; simpl.
  - destruct (IH b) as [-> | Hab]; constructor; congruence.
  - constructor. congruence.
Qed.

Lemma text_eqb_refl (a : text) : text_eqb a a = true.
Proof. destruct (text_eqb_spec a a); congruence. Qed.

(** C6: the record of an item holds, under [CBO] and [CNAE], the display
    string of the item's [cbo] and [cnae] objects; that string is
    [<code> - <description>] when the code is non-empty (true as a Python
    condition) and empty otherwise. *)
Theorem display_policy (item par : dict) :
  (dict_get (txt "cbo") item = Some (VDict par) ->
   dict_get (txt "CBO") (Teste.registro rt item)
   = Some (VSc (SStr (Teste.display rt par))))
  /\ (dict_get (txt "cnae") item = Some (VDict par) ->
      dict_get (txt "CNAE") (Teste.registro rt item)
      = Some (VSc (SStr (Teste.display rt par))))
  /\ Teste.display rt par
     = (if truthy rt (dict_get_empty (txt "codigo") par)
        then py_str rt (dict_get_empty (txt "codigo") par) ++ txt " - "
             ++ py_str rt (dict_get_empty (txt "descricao") par)
        else [])
  /\ (forall c d : text,
        Teste.display rt [(txt "codigo", VSc (SStr c));
                          (txt "descricao", VSc (SStr d))]
        = match c with
          | [] => []
          | _ :: _ => c ++ txt " - " ++ d
          end)
  /\ Teste.display rt [(txt "codigo", VSc (SStr (txt "123")));
                       (txt "descricao", VSc (SStr (txt "Clerk")))]
     = txt "123 - Clerk"
  /\ Teste.display rt [(txt "codigo", VSc (SStr []));
                       (txt "descricao", VSc (SStr (txt "Clerk")))]
     = [].
Proof.
  repeat split; try reflexivity.
  - intros H. unfold Teste.registro. rewrite H.
    destruct (dict_get (txt "cnae") item) as [[x|l|d]|];
      destruct (dict_get (txt "nome") item);
      destruct (dict_get (txt "cpf") item);
      destruct (dict_get (txt "nomeEmpregador") item); reflexivity.
  - intros H. unfold Teste.registro. rewrite H.
    destruct (dict_get (txt "cbo") item) as [[x|l|d]|];
      destruct (dict_get (txt "nome") item);
      destruct (dict_get (txt "cpf") item);
      destruct (dict_get (txt "nomeEmpregador") item); reflexivity.
  - intros c d. destruct c; reflexivity.
Qed.

End Display.

Lemma display_policy_witness :
  let item := [(txt "cbo", VDict [(txt "codigo", VSc (SStr (txt "123")));
                                  (txt "descricao", VSc (SStr (txt "Clerk")))]);
               (txt "nome", VSc (SStr (txt "Ana")))] in
  dict_get (txt "CBO") (Teste.registro rt_exemplo item)
  = Some (VSc (SStr (txt "123 - Clerk"))).
Proof.
  intros item.
  rewrite (proj1 (display_policy rt_exemplo item
                    [(txt "codigo", VSc (SStr (txt "123")));
                     (txt "descricao", VSc (SStr (txt "Clerk")))]));
    reflexivity.
Defined.

(** ** What an output row is made of *)

Section Entries.

Lemma dict_set_In (k a : text) (v b : value) (d : dict) :
  In (a, b) (dict_set k v d) -> (a = k /\ b = v) \/ In (a, b) d.
Proof.
  induction d as [|[k' v'] r IH]; simpl.
  - intros [E | []]. injection E as <- <-. left. split; reflexivity.
  - destruct (text_eqb_spec k' k) as [-> | Hk]; simpl.
    + intros [E | Hin]; [injection E as <- <-; left; split; reflexivity|].
      right. right. exact Hin.
    + intros [E | Hin]; [right; left; exact E|].
      destruct (IH Hin) as [H | H]; [left; exact H | right; right; exact H].
Qed.



Lemma sem_margem_In (a : text) (b : value) (row : Series scalar) :
  In (a, b) (Propostas.sem_margem row) ->
  exists x, b = VSc x /\ In (a, x) row /\ plain x.
Proof.
  unfold Propostas.sem_margem.
  assert (G : forall acc : dict,
             In (a, b)
                (fold_left
                   (fun out kv =>
                      let (col, val) := kv : text * scalar in
                      if notna val && negb (looks_json val)
                      then dict_set col (VSc val) out
                      else out) row acc) ->
             In (a, b) acc \/ exists x, b = VSc x /\ In (a, x) row /\ plain x).
  { induction row as [|[k x] r IH]; intros acc H; simpl in H; [left; exact H|].
    destruct (IH _ H) as [H1 | (y & E & Hin & Hp)].
    - destruct (notna x) eqn:Hn; simpl in H1; [|left; exact H1].
      destruct (looks_json x) eqn:Hj; simpl in H1; [left; exact H1|].
      apply dict_set_In in H1 as [[-> ->] | H1]; [|left; exact H1].
      right. exists x.
      exact (conj eq_refl (conj (or_introl eq_refl) (conj Hn Hj))).
    - right. exists y. exact (conj E (conj (or_intror Hin) Hp)). }
  intros H. destruct (G [] H) as [[] | H1]. exact H1.
Qed.







Lemma extrair_cbo_cnae_In (rt : runtime) (s : text) (reg : dict) :
  In reg (Teste.extrair_cbo_cnae_de_json rt s) ->
  exists item, reg = Teste.registro rt item.
Proof.
  unfold Teste.extrair_cbo_cnae_de_json.
  destruct (json_loads _) as [[x|l|d]|]; simpl; try tauto.
  - intros H. apply in_map_iff in H as (item & <- & _). eauto.
  - intros [<- | []]. eauto.
Qed.

End Entries.

(** ** Raw cells in output rows *)

Section RawCells.

Variable rt : runtime.


End RawCells.



(** ** Rows without entities *)

Section RowsWithoutEntities.

Variable rt : runtime.

Lemma extrair_motivo_de_celula (x : scalar) :
  exists c d, Propostas.extrair_motivo_inelegibilidade (VSc x) = Some (c, d).
Proof.
  unfold Propostas.extrair_motivo_inelegibilidade. simpl.
  destruct (isnull x); [do 2 eexists; reflexivity|].
  destruct x; try (do 2 eexists; reflexivity).
  destruct (Propostas.safe_load_json (strip s)) as [[]| |];
    do 2 eexists; reflexivity.
Qed.

Lemma motivo_da_linha_total (row : Series scalar) :
  exists c d, Propostas.motivo_da_linha row = Some (c, d).
Proof.
  unfold Propostas.motivo_da_linha.
  destruct (Propostas.primeira Propostas.candidatas_motivo row).
  - apply extrair_motivo_de_celula.
  - do 2 eexists; reflexivity.
Qed.

(** The loop body never raises on a row of cells. *)
Lemma processar_linha_total (row : Series scalar) :
  exists outs, Propostas.processar_linha row = Some outs.
Proof.
  unfold Propostas.processar_linha.
  destruct (extrair_registros_de_celula (Propostas.margem_da_linha row))
    as (regs & ->).
  destruct (motivo_da_linha_total row) as (c & d & ->).
  destruct regs; [|eexists; reflexivity].
  destruct (Propostas.com_motivo c d (Propostas.sem_margem row));
    eexists; reflexivity.
Qed.

(** Nor does the run over a frame of cells. *)
Lemma linhas_saida_total (rows : list (Series scalar)) :
  exists linhas, Propostas.linhas_saida rows = Some linhas.
Proof.
  induction rows as [|row rest (outras & IH)]; [eexists; reflexivity|].
  destruct (processar_linha_total row) as (novas & H).
  simpl. rewrite H, IH. eexists; reflexivity.
Qed.

Lemma processar_arquivo_total (df : DataFrame scalar) :
  exists s, Propostas.processar_arquivo df = Some s.
Proof.
  unfold Propostas.processar_arquivo.
  destruct (linhas_saida_total (iterrows df)) as ([|l ls] & ->);
    eexists; reflexivity.
Qed.

Lemma dict_set_not_nil (k : text) (v : value) (d : dict) : dict_set k v d <> [].
Proof.
  destruct d as [|[k' v'] r]; simpl; [discriminate|].
  destruct (text_eqb k' k); discriminate.
Qed.

Lemma sem_margem_not_nil (row : Series scalar) (a : text) (x : scalar) :
  In (a, x) row -> plain x -> Propostas.sem_margem row <> [].
Proof.
  unfold Propostas.sem_margem. intros Hin [Hn Hj].
  assert (G : forall (r : Series scalar) (acc : dict),
             acc <> [] ->
             fold_left
               (fun out kv =>
                  let (col, val) := kv : text * scalar in
                  if notna val && negb (looks_json val)
                  then dict_set col (VSc val) out
                  else out) r acc <> []).
  { induction r as [|[k y] r IH]; intros acc Hacc; simpl; [exact Hacc|].
    apply IH. destruct (notna y && negb (looks_json y)); [|exact Hacc].
    apply dict_set_not_nil. }
  assert (K : forall acc : dict,
             fold_left
               (fun out kv =>
                  let (col, val) := kv : text * scalar in
                  if notna val && negb (looks_json val)
                  then dict_set col (VSc val) out
                  else out) row acc <> []).
  { induction row as [|[k y] r IH]; intros acc; [destruct Hin|].
    simpl. destruct Hin as [E | Hin].
    - injection E as -> ->. rewrite Hn, Hj. simpl.
      apply G. apply dict_set_not_nil.
    - apply IH. exact Hin. }
  apply K.
Qed.

Lemma dict_set_has_key (k : text) (w : value) (d : dict) :
  In (k, w) (dict_set k w d).
Proof.
  induction d as [|[k' v'] r IH]; simpl; [left; reflexivity|].
  destruct (text_eqb_spec k' k) as [-> | _];
    [left; reflexivity | right; exact IH].
Qed.

Lemma dict_set_keeps_key (a k : text) (w : value) (d : dict) :
  (exists v, In (a, v) d) -> exists v, In (a, v) (dict_set k w d).
Proof.
  induction d as [|[k' v'] r IH]; intros (v & H); [destruct H|].
  simpl. destruct H as [E | H].
  - injection E as -> ->.
    destruct (text_eqb a k); eexists; left; reflexivity.
  - destruct (text_eqb k' k); [exists v; right; exact H|].
    destruct (IH (ex_intro _ v H)) as (v0 & H0). exists v0. right. exact H0.
Qed.

(** Every present cell that is not JSON-like has its column in the row kept
    without entities. *)
Lemma sem_margem_has (row : Series scalar) (a : text) (x : scalar) :
  In (a, x) row -> plain x -> exists v, In (a, v) (Propostas.sem_margem row).
Proof.
  unfold Propostas.sem_margem. intros Hin [Hn Hj].
  assert (G : forall (r : Series scalar) (acc : dict),
             (exists v, In (a, v) acc) ->
             exists v,
               In (a, v)
                  (fold_left
                     (fun out kv =>
                        let (col, val) := kv : text * scalar in
                        if notna val && negb (looks_json val)
                        then dict_set col (VSc val) out
                        else out) r acc)).
  { induction r as [|[k y] r IH]; intros acc Hacc; simpl; [exact Hacc|].
    apply IH. destruct (notna y && negb (looks_json y)); [|exact Hacc].
    apply dict_set_keeps_key. exact Hacc. }
  assert (K : forall acc : dict,
             exists v,
               In (a, v)
                  (fold_left
                     (fun out kv =>
                        let (col, val) := kv : text * scalar in
                        if notna val && negb (looks_json val)
                        then dict_set col (VSc val) out
                        else out) row acc)).
  { induction row as [|[k y] r IH]; intros acc; [destruct Hin|].
    simpl. destruct Hin as [E | Hin].
    - injection E as -> ->. rewrite Hn, Hj. simpl.
      apply G. eexists. apply dict_set_has_key.
    - apply IH. exact Hin. }
  apply K.
Qed.

Lemma com_motivo_not_nil (c d : value) (out : dict) :
  out <> [] -> Propostas.com_motivo c d out <> [].
Proof.
  unfold Propostas.com_motivo.
  destruct (negb (Propostas.is_none c) || negb (Propostas.is_none d)); auto.
  intros _. apply dict_set_not_nil.
Qed.

(** C1, as amended: in processar_propostas.py a source row that gives no
    entity record yields the one output row made of its present cells that
    are not JSON-like, plus the two eligibility fields when either is not
    None; that row is emitted when it has at least one entry (as it has
    whenever some cell of the source row is present and not JSON-like) and
    the source row is dropped when it has none.  In teste.py such a row
    yields no output row. *)
Theorem row_without_entities (row : Series scalar) :
  Propostas.extrair_registros_de_margens (VSc (Propostas.margem_da_linha row))
  = Some [] ->
  (exists c d,
     Propostas.motivo_da_linha row = Some (c, d)
     /\ Propostas.processar_linha row
        = Some (match Propostas.com_motivo c d (Propostas.sem_margem row) with
                | [] => []
                | _ :: _ =>
                  [Propostas.com_motivo c d (Propostas.sem_margem row)]
                end))
  /\ (forall (a : text) (b : value),
        In (a, b) (Propostas.sem_margem row) ->
        exists x, b = VSc x /\ In (a, x) row /\ plain x)
  /\ (forall (a : text) (x : scalar),
        In (a, x) row -> plain x ->
        (exists v, In (a, v) (Propostas.sem_margem row))
        /\ exists out, Propostas.processar_linha row = Some [out])
  /\ ((forall s : text,
         loc Teste.margens_prev row = Some (SStr s) ->
         Teste.extrair_cbo_cnae_de_json rt (strip s) = []) ->
      Teste.linhas_da_linha rt row = []).
Proof.
  intros Hregs.
  destruct (motivo_da_linha_total row) as (c & d & Hm).
  assert (Hp : Propostas.processar_linha row
               = Some (match Propostas.com_motivo c d (Propostas.sem_margem row)
                       with
                       | [] => []
                       | _ :: _ =>
                         [Propostas.com_motivo c d (Propostas.sem_margem row)]
                       end)).
  { unfold Propostas.processar_linha. rewrite Hregs, Hm.
    destruct (Propostas.com_motivo c d (Propostas.sem_margem row));
      reflexivity. }
  split; [exists c, d; split; assumption|].
  split; [intros a b; apply sem_margem_In|].
  split.
  - intros a x Hin Hx. split; [eapply sem_margem_has; eauto|]. rewrite Hp.
    pose proof (sem_margem_not_nil row a x Hin Hx) as N.
    apply (com_motivo_not_nil c d) in N.
    destruct (Propostas.com_motivo c d (Propostas.sem_margem row));
      [contradiction|eexists; reflexivity].
  - intros H. unfold Teste.linhas_da_linha.
    destruct (loc Teste.margens_prev row) as [valor|]; [|reflexivity].
    destruct (notna valor); [|reflexivity].
    destruct valor as [| | | | | |s]; try reflexivity.
    rewrite (H s eq_refl).
    destruct (startswith 123 (strip s) || startswith 91 (strip s)); reflexivity.
Qed.

End RowsWithoutEntities.

Lemma row_without_entities_witness :
  let row := [(txt "Margens Prev", SStr (txt "n/a"));
              (txt "Parceiro", SStr (txt "P"));
              (txt "Obs", SNaN)] in
  Propostas.processar_linha row
  = Some [[(txt "Margens Prev", VSc (SStr (txt "n/a")));
           (txt "Parceiro", VSc (SStr (txt "P")))]].
Proof.
  intros row.
  assert (H : Propostas.extrair_registros_de_margens
                (VSc (Propostas.margem_da_linha row)) = Some [])
    by (vm_compute; reflexivity).
  destruct (row_without_entities rt_exemplo row H)
    as ((c & d & Hm & Hp) & _).
  vm_compute in Hm. injection Hm as <- <-.
  rewrite Hp. vm_compute. reflexivity.
Defined.

(** C1 as stated fails: a row whose payload is an empty array and whose other
    cells are empty is dropped by processar_propostas.py, and teste.py drops
    every row whose payload gives no record, whatever its other cells. *)
Lemma row_without_entities_dropped :
  let vazia := [(txt "Margens Prev", SStr (js "[]")); (txt "Obs", SNaN)] in
  let sem_registro := [(txt "Margens Prev", SStr (js "[]"));
                       (txt "Parceiro", SStr (txt "P"))] in
  Propostas.extrair_registros_de_margens
    (VSc (Propostas.margem_da_linha vazia)) = Some []
  /\ Propostas.processar_linha vazia = Some []
  /\ Teste.extrair_cbo_cnae_de_json rt_exemplo (js "[]") = []
  /\ Teste.linhas_da_linha rt_exemplo sem_registro = [].
Proof. repeat split; vm_compute; reflexivity. Qed.

(** ** Rows that are not JSON-like (teste.py) *)

Section NotJsonLike.

Variable rt : runtime.

(** C10: in teste.py a row whose payload cell is a string that, stripped,
    begins with neither a brace nor a bracket gives no output row, whatever
    the decoder would make of the text. *)
Theorem non_json_like_payload_gives_no_row
  (row : Series scalar) (s : text) :
  loc Teste.margens_prev row = Some (SStr s) ->
  startswith 123 (strip s) = false ->
  startswith 91 (strip s) = false ->
  Teste.linhas_da_linha rt row = [].
Proof.
  intros Hloc Hb Hk. unfold Teste.linhas_da_linha.
  rewrite Hloc. simpl. rewrite Hb, Hk. reflexivity.
Qed.

End NotJsonLike.

Lemma non_json_like_payload_witness :
  let row := [(txt "Margens Prev", SStr (txt " 5 ")); (txt "X", SInt 1)] in
  json_loads (strip (txt " 5 ")) = Some (VSc (SInt 5))
  /\ Teste.linhas_da_linha rt_exemplo row = [].
Proof.
  split; [vm_compute; reflexivity|].
  apply (non_json_like_payload_gives_no_row rt_exemplo _ (txt " 5 "));
    vm_compute; reflexivity.
Defined.

(** ** Deduplication *)

Section Deduplication.








End Deduplication.

(** ** Fallback *)

Section Fallback.

Variable rt : runtime.


End Fallback.


(** ** Dictionaries: lookup after update *)

Section Dictionaries.

Lemma text_eqb_sym (a b : text) : text_eqb a b = text_eqb b a.
Proof.
  destruct (text_eqb_spec a b) as [-> | H]; [symmetry; apply text_eqb_refl|].
  destruct (text_eqb_spec b a) as [-> | _]; [congruence|reflexivity].
Qed.

Lemma dict_get_set (k k' : text) (v : value) (d : dict) :
  dict_get k (dict_set k' v d)
  = if text_eqb k' k then Some v else dict_get k d.
Proof.
  induction d as [|[k0 v0] r IH]; simpl; [reflexivity|].
  destruct (text_eqb_spec k0 k') as [-> | H0]; simpl.
  - destruct (text_eqb k' k); reflexivity.
  - rewrite IH. destruct (text_eqb_spec k0 k) as [-> | H1]; [|reflexivity].
    destruct (text_eqb_spec k' k) as [-> | _]; [congruence|reflexivity].
Qed.

Lemma dict_get_In (k : text) (v : value) (d : dict) :
  dict_get k d = Some v -> In (k, v) d.
Proof.
  induction d as [|[k0 v0] r IH]; simpl; [discriminate|].
  destruct (text_eqb_spec k0 k) as [-> | _].
  - intros E. injection E as ->. left. reflexivity.
  - intros H. right. auto.
Qed.

Lemma dict_get_None (k : text) (d : dict) :
  dict_get k d = None <-> ~ In k (map fst d).
Proof.
  induction d as [|[k0 v0] r IH]; simpl; [tauto|].
  destruct (text_eqb_spec k0 k) as [-> | H]; split.
  - discriminate.
  - intros N. exfalso. apply N. left. reflexivity.
  - intros E [F | F]; [congruence|]. apply IH in E. contradiction.
  - intros N. apply IH. tauto.
Qed.

Lemma dict_set_keys (a k : text) (v : value) (d : dict) :
  In a (map fst (dict_set k v d)) <-> a = k \/ In a (map fst d).
Proof.
  induction d as [|[k0 v0] r IH]; simpl; [intuition congruence|].
  destruct (text_eqb_spec k0 k) as [-> | H]; simpl; [intuition congruence|].
  rewrite IH. intuition congruence.
Qed.

(** Assignment keeps the keys of a dict distinct. *)
Lemma dict_set_NoDup (k : text) (v : value) (d : dict) :
  NoDup (map fst d) -> NoDup (map fst (dict_set k v d)).
Proof.
  induction d as [|[k0 v0] r IH]; simpl; intros H.
  - constructor; [intros []|constructor].
  - inversion H as [|? ? Hn Hr]; subst.
    destruct (text_eqb_spec k0 k) as [-> | Hk]; simpl.
    + constructor; assumption.
    + constructor; [|auto].
      rewrite dict_set_keys. intros [E | F]; [congruence|contradiction].
Qed.

Lemma dict_update_NoDup (e : dict) :
  forall d : dict, NoDup (map fst d) -> NoDup (map fst (dict_update d e)).
Proof.
  unfold dict_update.
  induction e as [|[k v] r IH]; intros d H; simpl; [exact H|].
  apply IH, dict_set_NoDup, H.
Qed.

(** [d.update(e)] read back: the value of [e] where [e] has the key, that of
    [d] elsewhere. *)
Lemma dict_get_update (k : text) (e : dict) :
  NoDup (map fst e) ->
  forall d : dict,
    dict_get k (dict_update d e)
    = match dict_get k e with
      | Some v => Some v
      | None => dict_get k d
      end.
Proof.
  unfold dict_update.
  induction e as [|[k1 v1] r IH]; intros H d; simpl; [reflexivity|].
  inversion H as [|? ? Hn Hr]; subst.
  rewrite (IH Hr), dict_get_set.
  destruct (text_eqb_spec k1 k) as [-> | _]; [|reflexivity].
  apply dict_get_None in Hn. rewrite Hn. reflexivity.
Qed.

Lemma fold_left_pointwise {A B} (f g : A -> B -> A) (l : list B) :
  (forall a b, f a b = g a b) ->
  forall a, fold_left f l a = fold_left g l a.
Proof.
  intros H. induction l as [|b l IH]; intros a; simpl; [reflexivity|].
  rewrite H. apply IH.
Qed.

(** A loop that copies the cells [keep] accepts, read back. *)
Lemma copy_loop_get (keep : text -> scalar -> bool)
  (f : dict -> text * scalar -> dict) (a : text) :
  (forall out col val,
     f out (col, val) = if keep col val then dict_set col (VSc val) out
                        else out) ->
  forall (row : Series scalar) (acc : dict),
    NoDup (map fst row) ->
    dict_get a (fold_left f row acc)
    = match loc a row with
      | Some x => if keep a x then Some (VSc x) else dict_get a acc
      | None => dict_get a acc
      end.
Proof.
  intros Hf. induction row as [|[k x] r IH]; intros acc H; simpl;
    [reflexivity|].
  inversion H as [|? ? Hn Hr]; subst. rewrite (IH _ Hr), Hf.
  assert (L : forall y, loc k r = Some y -> False).
  { intros y E. apply Hn. clear - E.
    induction r as [|[k1 x1] r IH]; simpl in *; [discriminate|].
    destruct (text_eqb_spec k1 k) as [-> | _]; [left; reflexivity|].
    right. auto. }
  destruct (text_eqb_spec k a) as [-> | Hk].
  - destruct (loc a r) as [y|] eqn:E; [destruct (L y eq_refl)|].
    destruct (keep a x); [|reflexivity].
    rewrite dict_get_set, text_eqb_refl. reflexivity.
  - assert (G : dict_get a (if keep k x then dict_set k (VSc x) acc else acc)
                = dict_get a acc).
    { destruct (keep k x); [|reflexivity].
      rewrite dict_get_set.
      destruct (text_eqb_spec k a); [congruence|reflexivity]. }
    rewrite G. reflexivity.
Qed.

Lemma copy_loop_NoDup (keep : text -> scalar -> bool)
  (f : dict -> text * scalar -> dict) :
  (forall out col val,
     f out (col, val) = if keep col val then dict_set col (VSc val) out
                        else out) ->
  forall (row : Series scalar) (acc : dict),
    NoDup (map fst acc) -> NoDup (map fst (fold_left f row acc)).
Proof.
  intros Hf. induction row as [|[k x] r IH]; intros acc H; simpl; [exact H|].
  apply IH. rewrite Hf. destruct (keep k x); [apply dict_set_NoDup|]; exact H.
Qed.

End Dictionaries.

(** ** The fields of a row built for an entity (processar_propostas.py) *)

Section MappedRow.

Lemma loc_In (a : text) (x : scalar) (row : Series scalar) :
  NoDup (map fst row) -> In (a, x) row -> loc a row = Some x.
Proof.
  induction row as [|[k y] r IH]; intros H Hin; [destruct Hin|].
  inversion H as [|? ? Hn Hr]; subst. simpl.
  destruct Hin as [E | Hin].
  - injection E as -> ->. rewrite text_eqb_refl. reflexivity.
  - destruct (text_eqb_spec k a) as [-> | _]; [|auto].
    exfalso. apply Hn. apply (in_map fst) in Hin. exact Hin.
Qed.

Lemma colunas_top_level_get (a : text) (row : Series scalar) :
  NoDup (map fst row) ->
  dict_get a (Propostas.colunas_top_level row)
  = match loc a row with
    | Some x => if keep_top_level a x then Some (VSc x) else None
    | None => None
    end.
Proof.
  intros H. unfold Propostas.colunas_top_level.
  rewrite (copy_loop_get keep_top_level _ a); [reflexivity| |exact H].
  intros out col val. unfold keep_top_level.
  destruct (text_eqb col Propostas.margens_prev), (notna val); reflexivity.
Qed.

Lemma sem_margem_get (a : text) (row : Series scalar) :
  NoDup (map fst row) ->
  dict_get a (Propostas.sem_margem row)
  = match loc a row with
    | Some x => if keep_sem_margem a x then Some (VSc x) else None
    | None => None
    end.
Proof.
  intros H. unfold Propostas.sem_margem.
  rewrite (copy_loop_get keep_sem_margem _ a); [reflexivity| |exact H].
  intros out col val. reflexivity.
Qed.

Lemma com_par_get (a kc kd : text) (par : option dict) (out : dict) :
  a <> kc -> a <> kd ->
  dict_get a (Propostas.com_par kc kd par out) = dict_get a out.
Proof.
  intros Hc Hd. unfold Propostas.com_par.
  destruct par as [[|p q]|]; try reflexivity.
  rewrite !dict_get_set.
  destruct (text_eqb_spec kd a); [congruence|].
  destruct (text_eqb_spec kc a); [congruence|reflexivity].
Qed.

Lemma com_par_set (kc kd : text) (p : dict) (out : dict) :
  p <> [] -> kc <> kd ->
  dict_get kc (Propostas.com_par kc kd (Some p) out)
  = Some (dict_get_none (txt "codigo") p)
  /\ dict_get kd (Propostas.com_par kc kd (Some p) out)
     = Some (dict_get_none (txt "descricao") p).
Proof.
  intros Hp Hk. unfold Propostas.com_par. destruct p as [|e p]; [congruence|].
  rewrite !dict_get_set, !text_eqb_refl.
  destruct (text_eqb_spec kd kc); [congruence|]. split; reflexivity.
Qed.

(** The loop over the other fields, read back under a prefixed key. *)
Lemma com_campos_get (k : text) (margem_item out : dict) :
  dict_get (txt "MargensPrev_" ++ k) (Propostas.com_campos margem_item out)
  = if label_in k Propostas.campos && dict_in k margem_item
    then Some (dict_get_none k margem_item)
    else dict_get (txt "MargensPrev_" ++ k) out.
Proof.
  unfold Propostas.com_campos. generalize Propostas.campos as ks.
  intros ks. revert out.
  induction ks as [|k0 ks IH]; intros out; [reflexivity|].
  cbn [fold_left label_in existsb]. rewrite IH. fold (label_in k ks).
  destruct (text_eqb_spec k k0) as [<- | Hk].
  - destruct (dict_in k margem_item); [|rewrite !andb_false_r; reflexivity].
    rewrite dict_get_set, text_eqb_refl, !andb_true_r.
    destruct (label_in k ks); reflexivity.
  - cbn [orb].
    assert (G : dict_get (txt "MargensPrev_" ++ k)
                  (if dict_in k0 margem_item
                   then dict_set (txt "MargensPrev_" ++ k0)
                                 (dict_get_none k0 margem_item) out
                   else out)
                = dict_get (txt "MargensPrev_" ++ k) out).
    { destruct (dict_in k0 margem_item); [|reflexivity].
      rewrite dict_get_set.
      destruct (text_eqb_spec (txt "MargensPrev_" ++ k0)
                              (txt "MargensPrev_" ++ k)) as [E | _];
        [|reflexivity].
      apply app_inv_head in E. congruence. }
    rewrite G. reflexivity.
Qed.

Lemma com_campos_get_other (a : text) (margem_item out : dict) :
  ~ In a (map (app (txt "MargensPrev_")) Propostas.campos) ->
  dict_get a (Propostas.com_campos margem_item out) = dict_get a out.
Proof.
  unfold Propostas.com_campos. generalize Propostas.campos as ks.
  intros ks. revert out.
  induction ks as [|k0 ks IH]; intros out H; [reflexivity|].
  cbn [fold_left map] in *.
  rewrite IH by (intros F; apply H; right; exact F).
  destruct (dict_in k0 margem_item); [|reflexivity].
  rewrite dict_get_set.
  destruct (text_eqb_spec (txt "MargensPrev_" ++ k0) a) as [E | _];
    [|reflexivity].
  exfalso. apply H. left. exact E.
Qed.

Lemma com_motivo_get (a : text) (c d : value) (out : dict) :
  a <> txt "MotivoInelegibilidade_Codigo" ->
  a <> txt "MotivoInelegibilidade_Descricao" ->
  dict_get a (Propostas.com_motivo c d out) = dict_get a out.
Proof.
  intros Hc Hd. unfold Propostas.com_motivo.
  destruct (negb (Propostas.is_none c) || negb (Propostas.is_none d));
    [|reflexivity].
  rewrite !dict_get_set.
  destruct (text_eqb_spec (txt "MotivoInelegibilidade_Descricao") a);
    [congruence|].
  destruct (text_eqb_spec (txt "MotivoInelegibilidade_Codigo") a);
    [congruence|reflexivity].
Qed.

Lemma sub_objeto_dict (k : text) (margem_item p : dict) :
  dict_get k margem_item = Some (VDict p) ->
  Propostas.sub_objeto k margem_item = Some p.
Proof.
  intros H. unfold Propostas.sub_objeto, dict_get_none. rewrite H. reflexivity.
Qed.

(** X1: what [mapear_linha] writes for an entity.  Each of the five fields the
    item has goes verbatim under its prefixed key; a non-empty [cbo] or
    [cnae] object gives its code and its description, None standing for a
    missing one; an empty [cbo] object writes nothing. *)
Theorem mapear_linha_fields (row : Series scalar) (margem_item : dict) :
  (forall (k : text) (v : value),
     In k Propostas.campos -> dict_get k margem_item = Some v ->
     dict_get (txt "MargensPrev_" ++ k) (Propostas.mapear_linha row margem_item)
     = Some v)
  /\ (forall p : dict,
        dict_get (txt "cbo") margem_item = Some (VDict p) -> p <> [] ->
        dict_get (txt "MargensPrev_CBO_Codigo")
                 (Propostas.mapear_linha row margem_item)
        = Some (dict_get_none (txt "codigo") p)
        /\ dict_get (txt "MargensPrev_CBO_Descricao")
                    (Propostas.mapear_linha row margem_item)
           = Some (dict_get_none (txt "descricao") p))
  /\ (forall p : dict,
        dict_get (txt "cnae") margem_item = Some (VDict p) -> p <> [] ->
        dict_get (txt "MargensPrev_CNAE_Codigo")
                 (Propostas.mapear_linha row margem_item)
        = Some (dict_get_none (txt "codigo") p)
        /\ dict_get (txt "MargensPrev_CNAE_Descricao")
                    (Propostas.mapear_linha row margem_item)
           = Some (dict_get_none (txt "descricao") p))
  /\ (dict_get (txt "cbo") margem_item = Some (VDict []) ->
      dict_get (txt "MargensPrev_CBO_Codigo")
               (Propostas.mapear_linha row margem_item)
      = dict_get (txt "MargensPrev_CBO_Codigo")
                 (Propostas.colunas_top_level row)).
Proof.
  split; [|split; [|split]].
  - intros k v Hk Hv. unfold Propostas.mapear_linha.
    rewrite com_campos_get.
    assert (L : label_in k Propostas.campos = true).
    { apply existsb_exists. exists k. split; [exact Hk|apply text_eqb_refl]. }
    unfold dict_in, dict_get_none. rewrite L, Hv. reflexivity.
  - intros p Hp Hne. unfold Propostas.mapear_linha. cbv zeta.
    rewrite (sub_objeto_dict _ _ _ Hp).
    destruct (com_par_set (txt "MargensPrev_CBO_Codigo")
                (txt "MargensPrev_CBO_Descricao") p
                (Propostas.colunas_top_level row) Hne ltac:(discriminate))
      as [A B].
    split.
    + rewrite (com_campos_get (txt "CBO_Codigo")).
      replace (label_in (txt "CBO_Codigo") Propostas.campos) with false
        by reflexivity.
      cbn [andb]. rewrite com_par_get by discriminate. exact A.
    + rewrite (com_campos_get (txt "CBO_Descricao")).
      replace (label_in (txt "CBO_Descricao") Propostas.campos) with false
        by reflexivity.
      cbn [andb]. rewrite com_par_get by discriminate. exact B.
  - intros p Hp Hne. unfold Propostas.mapear_linha. cbv zeta.
    rewrite (sub_objeto_dict _ _ _ Hp).
    match goal with
    | |- context [Propostas.com_par _ _ (Some p) ?o] =>
      destruct (com_par_set (txt "MargensPrev_CNAE_Codigo")
                  (txt "MargensPrev_CNAE_Descricao") p o Hne
                  ltac:(discriminate)) as [A B]
    end.
    split.
    + rewrite (com_campos_get (txt "CNAE_Codigo")).
      replace (label_in (txt "CNAE_Codigo") Propostas.campos) with false
        by reflexivity.
      exact A.
    + rewrite (com_campos_get (txt "CNAE_Descricao")).
      replace (label_in (txt "CNAE_Descricao") Propostas.campos) with false
        by reflexivity.
      exact B.
  - intros Hp. unfold Propostas.mapear_linha. cbv zeta.
    rewrite (sub_objeto_dict _ _ _ Hp).
    rewrite (com_campos_get (txt "CBO_Codigo")).
    replace (label_in (txt "CBO_Codigo") Propostas.campos) with false
      by reflexivity.
    cbn [andb]. rewrite com_par_get by discriminate. reflexivity.
Qed.

Lemma mapear_linha_fields_witness :
  let item := [(txt "nome", VSc (SStr (txt "Ana")));
               (txt "cpf", VSc (SInt 123));
               (txt "cbo", VDict [(txt "codigo", VSc (SInt 4110))])] in
  let out := Propostas.mapear_linha [(txt "Parceiro", SStr (txt "P"))] item in
  dict_get (txt "MargensPrev_cpf") out = Some (VSc (SInt 123))
  /\ dict_get (txt "MargensPrev_CBO_Codigo") out = Some (VSc (SInt 4110))
  /\ dict_get (txt "MargensPrev_CBO_Descricao") out = Some (VSc SNone).
Proof.
  intros item out.
  destruct (mapear_linha_fields [(txt "Parceiro", SStr (txt "P"))] item)
    as (F & C & _).
  split.
  - apply (F (txt "cpf")); [simpl; tauto|reflexivity].
  - apply (C [(txt "codigo", VSc (SInt 4110))]); [reflexivity|discriminate].
Defined.

End MappedRow.

(** ** Expansion of a source row (processar_propostas.py) *)

Section Expansion.

(** X2: a source row whose payload gives records yields one output row per
    record, in the order of the records, and every one of them shows each
    present cell of the source row under its own column, the column
    [Margens Prev] and the columns named like a written key apart. *)
Theorem expansion_keeps_columns (row : Series scalar) (regs : list dict)
  (c d : value) :
  NoDup (map fst row) ->
  Propostas.extrair_registros_de_margens (VSc (Propostas.margem_da_linha row))
  = Some regs ->
  regs <> [] ->
  Propostas.motivo_da_linha row = Some (c, d) ->
  Propostas.processar_linha row
  = Some (map (fun reg =>
                 Propostas.com_motivo c d (Propostas.mapear_linha row reg))
              regs)
  /\ (forall (reg : dict) (a : text) (x : scalar),
        In (a, x) row -> notna x = true ->
        a <> Propostas.margens_prev -> ~ In a chaves_escritas ->
        dict_get a (Propostas.com_motivo c d (Propostas.mapear_linha row reg))
        = Some (VSc x)).
Proof.
  intros Hnd Hregs Hne Hm. split.
  - unfold Propostas.processar_linha. rewrite Hregs, Hm.
    destruct regs; [congruence|reflexivity].
  - intros reg a x Hin Hx Ha Hw.
    assert (W : forall k, In k chaves_escritas -> a <> k)
      by (intros k Hk E; apply Hw; rewrite E; exact Hk).
    rewrite com_motivo_get by (apply W; unfold chaves_escritas; simpl; tauto).
    unfold Propostas.mapear_linha. cbv zeta.
    rewrite com_campos_get_other.
    2:{ intros F. apply Hw. unfold chaves_escritas.
        apply in_or_app. right. apply in_or_app. left. exact F. }
    rewrite !com_par_get
      by (apply W; unfold chaves_escritas; simpl; tauto).
    rewrite (colunas_top_level_get a row Hnd), (loc_In a x row Hnd Hin).
    unfold keep_top_level. rewrite Hx.
    destruct (text_eqb_spec a Propostas.margens_prev); [contradiction|].
    reflexivity.
Qed.

Lemma expansion_keeps_columns_witness :
  let row := [(txt "Parceiro", SStr (txt "P"));
              (txt "Margens Prev", SStr (js "[{'nome':'A'},{'nome':'B'}]"));
              (txt "Obs", SNaN)] in
  Propostas.processar_linha row
  = Some [[(txt "Parceiro", VSc (SStr (txt "P")));
           (txt "MargensPrev_nome", VSc (SStr (txt "A")))];
          [(txt "Parceiro", VSc (SStr (txt "P")));
           (txt "MargensPrev_nome", VSc (SStr (txt "B")))]].
Proof.
  intros row.
  destruct (expansion_keeps_columns row
              [[(txt "nome", VSc (SStr (txt "A")))];
               [(txt "nome", VSc (SStr (txt "B")))]]
              (VSc SNone) (VSc SNone)) as [E _].
  - repeat constructor; simpl; intuition discriminate.
  - vm_compute. reflexivity.
  - discriminate.
  - vm_compute. reflexivity.
  - rewrite E. vm_compute. reflexivity.
Defined.

(** X3: when the eligibility cell of a source row decodes to a code or a
    description that is not None, every output row of that source row holds
    both under their two keys, None standing for the one that is missing;
    when both are None every output row is the mapped row, or the row kept
    for a source row without records, as it is. *)
Theorem eligibility_fields (row : Series scalar) (c d : value)
  (outs : list dict) :
  Propostas.motivo_da_linha row = Some (c, d) ->
  Propostas.processar_linha row = Some outs ->
  (Propostas.is_none c && Propostas.is_none d = false ->
   forall out, In out outs ->
     dict_get (txt "MotivoInelegibilidade_Codigo") out = Some c
     /\ dict_get (txt "MotivoInelegibilidade_Descricao") out = Some d)
  /\ (Propostas.is_none c && Propostas.is_none d = true ->
      forall out, In out outs ->
        (exists reg, out = Propostas.mapear_linha row reg)
        \/ out = Propostas.sem_margem row).
Proof.
  intros Hm Hp. unfold Propostas.processar_linha in Hp.
  destruct (Propostas.extrair_registros_de_margens _) as [regs|];
    [|discriminate].
  rewrite Hm in Hp.
  assert (S : forall m,
             Propostas.is_none c && Propostas.is_none d = false ->
             dict_get (txt "MotivoInelegibilidade_Codigo")
                      (Propostas.com_motivo c d m) = Some c
             /\ dict_get (txt "MotivoInelegibilidade_Descricao")
                         (Propostas.com_motivo c d m) = Some d).
  { intros m H. unfold Propostas.com_motivo.
    rewrite <- negb_andb, H. cbn [negb].
    rewrite !dict_get_set. split; reflexivity. }
  assert (N : forall m,
             Propostas.is_none c && Propostas.is_none d = true ->
             Propostas.com_motivo c d m = m).
  { intros m H. unfold Propostas.com_motivo.
    rewrite <- negb_andb, H. reflexivity. }
  split; intros H out Hout.
  - destruct regs as [|r rs].
    + destruct (Propostas.com_motivo c d (Propostas.sem_margem row)) eqn:E;
        injection Hp as <-; [destruct Hout|].
      destruct Hout as [<- | []]. rewrite <- E. apply S, H.
    + injection Hp as <-.
      assert (Hmap : In out
                (map (fun reg =>
                        Propostas.com_motivo c d
                          (Propostas.mapear_linha row reg)) (r :: rs)))
        by exact Hout.
      apply in_map_iff in Hmap as (reg & <- & _). apply S, H.
  - destruct regs as [|r rs].
    + destruct (Propostas.com_motivo c d (Propostas.sem_margem row)) eqn:E;
        injection Hp as <-; [destruct Hout|].
      destruct Hout as [<- | []]. right. rewrite <- E. apply N, H.
    + injection Hp as <-.
      assert (Hmap : In out
                (map (fun reg =>
                        Propostas.com_motivo c d
                          (Propostas.mapear_linha row reg)) (r :: rs)))
        by exact Hout.
      apply in_map_iff in Hmap as (reg & <- & _). left. exists reg.
      apply N, H.
Qed.

Lemma eligibility_fields_witness :
  let row := [(txt "Margens Prev", SStr (js "[{'nome':'A'}]"));
              (txt "Motivo", SStr (js "{'codigo': 7}"))] in
  let out := [(txt "Motivo", VSc (SStr (js "{'codigo': 7}")));
              (txt "MargensPrev_nome", VSc (SStr (txt "A")));
              (txt "MotivoInelegibilidade_Codigo", VSc (SInt 7));
              (txt "MotivoInelegibilidade_Descricao", VSc SNone)] in
  Propostas.processar_linha row = Some [out]
  /\ dict_get (txt "MotivoInelegibilidade_Codigo") out = Some (VSc (SInt 7))
  /\ dict_get (txt "MotivoInelegibilidade_Descricao") out = Some (VSc SNone).
Proof.
  intros row out. split; [vm_compute; reflexivity|].
  refine (proj1 (eligibility_fields row (VSc (SInt 7)) (VSc SNone) [out] _ _)
                _ out (or_introl eq_refl));
    vm_compute; reflexivity.
Defined.

End Expansion.

(** ** The fields of a record and of an output row (teste.py) *)

Section RecordFields.

Variable rt : runtime.

(** X4: what [registro] keeps of an item.  The name and the employer pass as
    they are, the identifier is turned into text whatever its type, and a
    display string is there exactly when [cbo] (or [cnae]) is an object; a
    field the item lacks is absent from the record. *)
Theorem registro_fields (item : dict) :
  dict_get (txt "Nome") (Teste.registro rt item) = dict_get (txt "nome") item
  /\ dict_get (txt "Empregador") (Teste.registro rt item)
     = dict_get (txt "nomeEmpregador") item
  /\ dict_get (txt "CPF") (Teste.registro rt item)
     = option_map (fun cpf => VSc (SStr (py_str rt cpf)))
                  (dict_get (txt "cpf") item)
  /\ dict_get (txt "CBO") (Teste.registro rt item)
     = match dict_get (txt "cbo") item with
       | Some (VDict cbo) => Some (VSc (SStr (Teste.display rt cbo)))
       | _ => None
       end
  /\ dict_get (txt "CNAE") (Teste.registro rt item)
     = match dict_get (txt "cnae") item with
       | Some (VDict cnae) => Some (VSc (SStr (Teste.display rt cnae)))
       | _ => None
       end.
Proof.
  unfold Teste.registro.
  destruct (dict_get (txt "cbo") item) as [[x|l|d]|];
    destruct (dict_get (txt "cnae") item) as [[x'|l'|d']|];
    destruct (dict_get (txt "nome") item);
    destruct (dict_get (txt "cpf") item);
    destruct (dict_get (txt "nomeEmpregador") item);
    repeat split; reflexivity.
Qed.

Lemma registro_NoDup (item : dict) : NoDup (map fst (Teste.registro rt item)).
Proof.
  unfold Teste.registro.
  destruct (dict_get (txt "cbo") item) as [[x|l|d]|];
    destruct (dict_get (txt "cnae") item) as [[x'|l'|d']|];
    destruct (dict_get (txt "nome") item);
    destruct (dict_get (txt "cpf") item);
    destruct (dict_get (txt "nomeEmpregador") item);
    repeat apply dict_set_NoDup; constructor.
Qed.

Lemma outras_colunas_get (a : text) (row : Series scalar) :
  NoDup (map fst row) ->
  dict_get a (Teste.outras_colunas row)
  = match loc a row with
    | Some x => if keep_teste a x then Some (VSc x) else None
    | None => None
    end.
Proof.
  intros H. unfold Teste.outras_colunas.
  rewrite (copy_loop_get keep_teste _ a); [reflexivity| |exact H].
  intros out col val. unfold keep_teste.
  destruct (text_eqb col Teste.margens_prev), (notna val), (looks_json val);
    reflexivity.
Qed.

(** X5: a source row whose payload looks like JSON yields one output row per
    extracted record, in order; an output row shows every field of its
    record, which wins over a source column of the same name, and under any
    other column the cell of the source row when that cell is present, not
    JSON-like and not the payload, and nothing otherwise. *)
Theorem teste_row_fields (row : Series scalar) (s : text) :
  NoDup (map fst row) ->
  loc Teste.margens_prev row = Some (SStr s) ->
  looks_json (SStr s) = true ->
  Teste.linhas_da_linha rt row
  = map (dict_update (Teste.outras_colunas row))
        (Teste.extrair_cbo_cnae_de_json rt (strip s))
  /\ (forall reg : dict,
        In reg (Teste.extrair_cbo_cnae_de_json rt (strip s)) ->
        forall k : text,
          dict_get k (dict_update (Teste.outras_colunas row) reg)
          = match dict_get k reg with
            | Some v => Some v
            | None =>
              match loc k row with
              | Some x => if keep_teste k x then Some (VSc x) else None
              | None => None
              end
            end).
Proof.
  intros Hnd Hloc Hj. split.
  - unfold Teste.linhas_da_linha. rewrite Hloc. simpl in Hj |- *.
    rewrite Hj. reflexivity.
  - intros reg Hreg k.
    destruct (extrair_cbo_cnae_In rt _ _ Hreg) as (item & ->).
    rewrite (dict_get_update k _ (registro_NoDup item)).
    rewrite (outras_colunas_get k row Hnd). reflexivity.
Qed.

End RecordFields.

Lemma teste_row_fields_witness :
  let row := [(txt "Nome", SStr (txt "da planilha"));
              (txt "Margens Prev", SStr (js "[{'nome':'Ana','cpf':12}]"));
              (txt "Parceiro", SStr (txt "P"))] in
  Teste.linhas_da_linha rt_exemplo row
  = [[(txt "Nome", VSc (SStr (txt "Ana")));
      (txt "Parceiro", VSc (SStr (txt "P")));
      (txt "CPF", VSc (SStr (txt "12")))]].
Proof.
  intros row.
  destruct (teste_row_fields rt_exemplo row (js "[{'nome':'Ana','cpf':12}]"))
    as [E _].
  - repeat constructor; simpl; intuition discriminate.
  - reflexivity.
  - reflexivity.
  - rewrite E. vm_compute. reflexivity.
Defined.

(** ** The written frame: columns and cells *)

Section WrittenFrame.

Lemma label_in_In (c : text) (l : list text) : label_in c l = true <-> In c l.
Proof.
  unfold label_in. rewrite existsb_exists. split.
  - intros (x & Hin & E). destruct (text_eqb_spec c x); congruence.
  - intros H. exists c. split; [exact H|apply text_eqb_refl].
Qed.

Lemma label_in_false (c : text) (l : list text) :
  label_in c l = false <-> ~ In c l.
Proof.
  rewrite <- label_in_In. destruct (label_in c l); split; congruence.
Qed.

Lemma dict_in_keys (c : text) (d : dict) :
  dict_in c d = true <-> In c (map fst d).
Proof.
  unfold dict_in. pose proof (dict_get_None c d) as H.
  destruct (dict_get c d); split; intros K; try reflexivity; try discriminate.
  - destruct (in_dec (list_eq_dec N.eq_dec) c (map fst d)) as [I | I];
      [exact I|].
    apply H in I. discriminate.
  - exfalso. apply (proj1 H eq_refl K).
Qed.

(** The labels gathered from one dict after those already seen. *)
Lemma gather_In (c : text) (d : dict) :
  forall cols : list text,
    In c (fold_left
            (fun cols kv =>
               if label_in (fst kv) cols then cols else cols ++ [fst kv])
            d cols)
    <-> In c cols \/ In c (map fst d).
Proof.
  induction d as [|[k v] r IH]; intros cols; simpl; [tauto|].
  rewrite IH. destruct (label_in k cols) eqn:L.
  - apply label_in_In in L. intuition (subst; auto).
  - rewrite in_app_iff. simpl. intuition (subst; auto).
Qed.

Lemma gather_NoDup (d : dict) :
  forall cols : list text,
    NoDup cols ->
    NoDup (fold_left
             (fun cols kv =>
                if label_in (fst kv) cols then cols else cols ++ [fst kv])
             d cols).
Proof.
  induction d as [|[k v] r IH]; intros cols H; simpl; [exact H|].
  apply IH. destruct (label_in k cols) eqn:L; [exact H|].
  apply label_in_false in L.
  apply NoDup_app; [exact H|repeat constructor; intros []|].
  intros x Hx [<- | []]. contradiction.
Qed.

Lemma first_seen_In (c : text) (ds : list dict) :
  In c (first_seen ds) <-> exists d, In d ds /\ dict_in c d = true.
Proof.
  unfold first_seen.
  assert (G : forall cols,
             In c (fold_left
                     (fun cols d =>
                        fold_left
                          (fun cols kv =>
                             if label_in (fst kv) cols then cols
                             else cols ++ [fst kv]) d cols) ds cols)
             <-> In c cols \/ exists d, In d ds /\ dict_in c d = true).
  { induction ds as [|d ds IH]; intros cols; simpl.
    - split; [tauto|]. intros [H | (d & [] & _)]. exact H.
    - rewrite IH, gather_In. split.
      + intros [[H | H] | (d' & Hin & Hk)]; [tauto| |].
        * right. exists d. split; [left; reflexivity|].
          apply dict_in_keys. exact H.
        * right. exists d'. tauto.
      + intros [H | (d' & [<- | Hin] & Hk)]; [tauto| |].
        * left. right. apply dict_in_keys. exact Hk.
        * right. exists d'. tauto. }
  rewrite G. simpl. tauto.
Qed.

Lemma first_seen_NoDup (ds : list dict) : NoDup (first_seen ds).
Proof.
  unfold first_seen.
  assert (G : forall cols,
             NoDup cols ->
             NoDup (fold_left
                      (fun cols d =>
                         fold_left
                           (fun cols kv =>
                              if label_in (fst kv) cols then cols
                              else cols ++ [fst kv]) d cols) ds cols)).
  { induction ds as [|d ds IH]; intros cols H; simpl; [exact H|].
    apply IH, gather_NoDup, H. }
  apply G. constructor.
Qed.

(** Priority labels first, the others after them: nothing lost, nothing
    twice. *)
Lemma priority_order (prio fs : list text) :
  NoDup prio -> NoDup fs ->
  let cols := filter (fun c => label_in c fs) prio
              ++ filter (fun c => negb (label_in c prio)) fs in
  NoDup cols /\ forall c, In c cols <-> In c fs.
Proof.
  intros Hp Hf cols. split.
  - apply NoDup_app; try (apply NoDup_filter; assumption).
    intros c H1 H2. apply filter_In in H1 as [H1 _].
    apply filter_In in H2 as [_ H2].
    apply label_in_In in H1. rewrite H1 in H2. discriminate.
  - intros c. unfold cols. rewrite in_app_iff, !filter_In.
    rewrite label_in_In. destruct (label_in c prio) eqn:L.
    + apply label_in_In in L. simpl. intuition congruence.
    + simpl. intuition congruence.
Qed.

Lemma prioridade_NoDup : NoDup Propostas.prioridade.
Proof.
  unfold Propostas.prioridade.
  repeat (apply NoDup_cons; [simpl; intuition discriminate|]).
  constructor.
Qed.

Lemma campos_extraidos_NoDup : NoDup Teste.campos_extraidos.
Proof.
  unfold Teste.campos_extraidos.
  repeat (apply NoDup_cons; [simpl; intuition discriminate|]).
  constructor.
Qed.

(** The second comprehension of [processar_arquivo] tests membership in the
    priority labels kept, which for a column of the frame is membership in
    the priority list. *)
Lemma rest_filter (prio fs : list text) :
  filter (fun c => negb (label_in c (filter (fun c => label_in c fs) prio))) fs
  = filter (fun c => negb (label_in c prio)) fs.
Proof.
  apply filter_ext_in. intros c Hc. f_equal.
  destruct (label_in c prio) eqn:L.
  - apply label_in_In. apply filter_In. split; [apply label_in_In; exact L|].
    apply label_in_In. exact Hc.
  - apply label_in_false. intros H. apply filter_In in H as [H _].
    apply label_in_In in H. congruence.
Qed.

Lemma columns_select (cols : list text) (df : DataFrame value) :
  columns (select cols df) = cols.
Proof. reflexivity. Qed.

Lemma columns_frame (ds : list dict) :
  columns (frame_of_dicts ds) = first_seen ds.
Proof. reflexivity. Qed.

Lemma propostas_columns_eq (linhas : list dict) :
  columns (Propostas.montar linhas)
  = filter (fun c => label_in c (first_seen linhas)) Propostas.prioridade
    ++ filter (fun c => negb (label_in c Propostas.prioridade))
              (first_seen linhas).
Proof.
  unfold Propostas.montar. cbv zeta. rewrite columns_select.
  rewrite columns_frame. apply f_equal, rest_filter.
Qed.

Lemma propostas_columns_In (linhas : list dict) (c : text) :
  In c (columns (Propostas.montar linhas)) <-> In c (first_seen linhas).
Proof.
  rewrite propostas_columns_eq.
  apply (priority_order Propostas.prioridade (first_seen linhas)
           prioridade_NoDup (first_seen_NoDup linhas)).
Qed.

(** X6: the columns of the frame [processar_arquivo] writes are the priority
    labels that occur, in the order of the priority list, followed by the
    other labels in the order in which the output rows first show them; they
    are exactly the keys of the output rows, each once. *)
Theorem propostas_columns (linhas : list dict) :
  columns (Propostas.montar linhas)
  = filter (fun c => label_in c (first_seen linhas)) Propostas.prioridade
    ++ filter (fun c => negb (label_in c Propostas.prioridade))
              (first_seen linhas)
  /\ NoDup (columns (Propostas.montar linhas))
  /\ (forall c : text,
        In c (columns (Propostas.montar linhas))
        <-> exists d, In d linhas /\ dict_in c d = true).
Proof.
  split; [apply propostas_columns_eq|]. split.
  - rewrite propostas_columns_eq.
    apply (priority_order Propostas.prioridade (first_seen linhas)
             prioridade_NoDup (first_seen_NoDup linhas)).
  - intros c. rewrite propostas_columns_In. apply first_seen_In.
Qed.

(** The loop that appends the remaining columns. *)
Lemma append_rest (cols : list text) :
  NoDup cols ->
  forall acc : list text,
    fold_left (fun acc col => if label_in col acc then acc else acc ++ [col])
              cols acc
    = acc ++ filter (fun c => negb (label_in c acc)) cols.
Proof.
  induction cols as [|c cols IH]; intros H acc; simpl;
    [symmetry; apply app_nil_r|].
  inversion H as [|? ? Hn Hr]; subst.
  rewrite (IH Hr). destruct (label_in c acc) eqn:L; simpl; [reflexivity|].
  rewrite <- app_assoc. simpl. do 2 f_equal.
  apply filter_ext_in. intros x Hx. f_equal.
  unfold label_in. rewrite existsb_app. simpl. rewrite orb_false_r.
  destruct (text_eqb_spec x c) as [-> | _]; [contradiction|].
  apply orb_false_r.
Qed.

Lemma name_column (linhas : list dict) :
  columns (if label_in (txt "Nome") (first_seen linhas)
           then drop_duplicates (txt "Nome") (frame_of_dicts linhas)
           else frame_of_dicts linhas)
  = first_seen linhas.
Proof.
  destruct (label_in (txt "Nome") (first_seen linhas)); reflexivity.
Qed.

Lemma teste_columns_eq (linhas : list dict) :
  columns (Teste.montar linhas)
  = filter (fun c => label_in c (first_seen linhas)) Teste.campos_extraidos
    ++ filter (fun c => negb (label_in c Teste.campos_extraidos))
              (first_seen linhas).
Proof.
  unfold Teste.montar. cbv zeta. rewrite columns_select.
  rewrite columns_frame, name_column. unfold Teste.colunas_desejadas.
  rewrite (append_rest _ (first_seen_NoDup linhas)), rest_filter.
  reflexivity.
Qed.

Lemma teste_columns_In (linhas : list dict) (c : text) :
  In c (columns (Teste.montar linhas)) <-> In c (first_seen linhas).
Proof.
  rewrite teste_columns_eq.
  apply (priority_order Teste.campos_extraidos (first_seen linhas)
           campos_extraidos_NoDup (first_seen_NoDup linhas)).
Qed.

(** X7: the columns of the frame teste.py writes are Nome, CPF, CBO, CNAE and
    Empregador, those that occur and in this order, followed by the other
    labels in the order in which the extracted rows first show them; they
    are exactly the keys of the extracted rows, each once. *)
Theorem teste_columns (linhas : list dict) :
  columns (Teste.montar linhas)
  = filter (fun c => label_in c (first_seen linhas)) Teste.campos_extraidos
    ++ filter (fun c => negb (label_in c Teste.campos_extraidos))
              (first_seen linhas)
  /\ NoDup (columns (Teste.montar linhas))
  /\ (forall c : text,
        In c (columns (Teste.montar linhas))
        <-> exists d, In d linhas /\ dict_in c d = true).
Proof.
  split; [apply teste_columns_eq|]. split.
  - rewrite teste_columns_eq.
    apply (priority_order Teste.campos_extraidos (first_seen linhas)
             campos_extraidos_NoDup (first_seen_NoDup linhas)).
  - intros c. rewrite teste_columns_In. apply first_seen_In.
Qed.

End WrittenFrame.

(** ** The written frame: cells *)

Section WrittenCells.




Lemma keep_first_incl {A} (key : A -> dup_key) (l : list A) :
  forall seen a, In a (keep_first key seen l) -> In a l.
Proof.
  induction l as [|x l IH]; intros seen a; simpl; [tauto|].
  destruct (existsb (same_key (key x)) seen); simpl.
  - intros H. right. exact (IH _ _ H).
  - intros [-> | H]; [left; reflexivity|right; exact (IH _ _ H)].
Qed.

Lemma keep_first_length {A} (key : A -> dup_key) (l : list A) :
  forall seen, (length (keep_first key seen l) <= length l)%nat.
Proof.
  induction l as [|x l IH]; intros seen; simpl; [lia|].
  destruct (existsb (same_key (key x)) seen); simpl.
  - specialize (IH seen). lia.
  - specialize (IH (key x :: seen)). lia.
Qed.




End WrittenCells.

(** ** What the repairer returns and what it leaves alone *)

Section RepairOutput.

Lemma remove_nul_free (s : text) : ~ In 0 (remove_nul s).
Proof.
  unfold remove_nul. intros H. apply filter_In in H as [_ H].
  discriminate.
Qed.

(** X10: the text teste.py's repairer returns has no colon followed by
    optional whitespace and a comma, a closing brace or a closing bracket,
    and the text the repairer of processar_propostas.py returns has no NUL
    character. *)
Theorem repair_output (x : text) :
  (forall d : char,
     delim d -> has_match d (Teste.limpar_json_invalido x) = false)
  /\ ~ In 0 (Propostas.limpar_json_invalido x).
Proof.
  split.
  - intros d Hd. apply teste_repaired_no_match, Hd.
  - rewrite propostas_repair_teste. apply remove_nul_free.
Qed.

(** X11: the texts a repairer returns unchanged.  For teste.py they are the
    texts in which no colon is followed by optional whitespace and a comma, a
    closing brace or a closing bracket; for processar_propostas.py those
    among them that hold no NUL character. *)
Theorem repair_fixed_points (x : text) :
  (Teste.limpar_json_invalido x = x
   <-> forall d : char, delim d -> has_match d x = false)
  /\ (Propostas.limpar_json_invalido x = x
      <-> ~ In 0 x /\ forall d : char, delim d -> has_match d x = false).
Proof.
  assert (T : Teste.limpar_json_invalido x = x ->
              forall d : char, delim d -> has_match d x = false).
  { intros E d Hd. rewrite <- E. apply teste_repaired_no_match, Hd. }
  split; split.
  - exact T.
  - apply teste_no_match_fixed.
  - intros E.
    assert (N : ~ In 0 x) by (rewrite <- E, propostas_repair_teste;
                              apply remove_nul_free).
    split; [exact N|]. apply T.
    rewrite propostas_repair_teste in E.
    rewrite remove_nul_fixed in E by (apply teste_repair_nul_free, N).
    exact E.
  - intros [N M]. rewrite propostas_repair_teste.
    rewrite (teste_no_match_fixed x M). apply remove_nul_fixed, N.
Qed.

End RepairOutput.

(** ** An object with one empty slot *)

Section EmptySlot.

Lemma isspace_range (c : char) : isspace c = true -> c <= 32 \/ 133 <= c.
Proof.
  unfold isspace. intros H.
  repeat (apply orb_prop in H as [H | H]);
    try (apply andb_prop in H as [H1 H2]; apply N.leb_le in H1, H2; lia);
    apply N.eqb_eq in H; lia.
Qed.

Lemma lstrip_ws (ws : text) (c : char) (r : text) :
  Forall (fun a => isspace a = true) ws -> isspace c = false ->
  lstrip (ws ++ c :: r) = c :: r.
Proof.
  intros Hws Hc. induction Hws as [|a ws Ha _ IH]; simpl.
  - rewrite Hc. reflexivity.
  - rewrite Ha. exact IH.
Qed.

Lemma has_match_no_colon (d : char) (s : text) :
  Forall (fun c => c <> colon) s -> has_match d s = false.
Proof.
  induction 1 as [|c s Hc _ IH]; simpl; [reflexivity|].
  rewrite IH. apply N.eqb_neq in Hc. rewrite Hc. reflexivity.
Qed.

Lemma has_match_prefix (d : char) (p s : text) :
  Forall (fun c => c <> colon) p -> has_match d (p ++ s) = has_match d s.
Proof.
  induction 1 as [|c p Hc _ IH]; simpl; [reflexivity|].
  rewrite IH. apply N.eqb_neq in Hc. rewrite Hc. reflexivity.
Qed.

Lemma re_sub_prefix (d : char) (p s : text) :
  Forall (fun c => c <> colon) p ->
  re_sub_colon d (p ++ s) = p ++ re_sub_colon d s.
Proof.
  induction 1 as [|c p Hc _ IH]; [reflexivity|].
  cbn [app]. rewrite re_sub_colon_cons.
  apply N.eqb_neq in Hc. rewrite Hc, IH. reflexivity.
Qed.

Lemma plain_key_no_colon (k : text) :
  plain_key k -> Forall (fun c => c <> colon) k.
Proof.
  apply Forall_impl. unfold colon. intros c H. tauto.
Qed.

Lemma plain_key_nul_free (k : text) : plain_key k -> ~ In 0 k.
Proof.
  intros H I. unfold plain_key in H. rewrite Forall_forall in H.
  apply H in I. lia.
Qed.

Lemma ws_no_colon (ws : text) :
  Forall (fun a => isspace a = true) ws -> Forall (fun c => c <> colon) ws.
Proof.
  apply Forall_impl. intros c H. apply isspace_range in H. unfold colon. lia.
Qed.

(** The slot as the substitutions see it: the text from the colon on. *)
Lemma slot_casa (d : char) (ws : text) :
  Forall (fun a => isspace a = true) ws ->
  casa d (ws ++ [125]) = if 125 =? d then Some [] else None.
Proof.
  intros Hws. unfold casa. rewrite lstrip_ws by (exact Hws || reflexivity).
  reflexivity.
Qed.

Lemma empty_slot_split (k t : text) :
  empty_slot k t = (123 :: 34 :: k ++ [34]) ++ 58 :: t ++ [125].
Proof.
  unfold empty_slot. cbn [app]. rewrite <- app_assoc. reflexivity.
Qed.

Lemma slot_prefix_no_colon (k : text) :
  plain_key k -> Forall (fun c => c <> colon) (123 :: 34 :: k ++ [34]).
Proof.
  intros H. unfold colon.
  repeat (constructor; [lia|]).
  apply Forall_app. split; [apply plain_key_no_colon, H|].
  constructor; [lia|constructor].
Qed.

Lemma slot_untouched (d : char) (k t : text) :
  plain_key k -> Forall (fun c => c <> colon) t ->
  casa d (t ++ [125]) = None ->
  re_sub_colon d (empty_slot k t) = empty_slot k t.
Proof.
  intros Hk Ht Hc. apply no_match_fixed.
  rewrite empty_slot_split, has_match_prefix by apply slot_prefix_no_colon, Hk.
  cbn [has_match]. unfold casa_b. rewrite Hc.
  rewrite has_match_no_colon; [reflexivity|].
  apply Forall_app. split; [exact Ht|]. unfold colon.
  constructor; [lia|constructor].
Qed.

Lemma slot_filled (k ws : text) :
  plain_key k -> Forall (fun a => isspace a = true) ws ->
  re_sub_colon rbrace (empty_slot k ws) = empty_slot k null_lit.
Proof.
  intros Hk Hws.
  rewrite !empty_slot_split, re_sub_prefix by apply slot_prefix_no_colon, Hk.
  f_equal. rewrite re_sub_colon_cons. cbn [N.eqb colon Pos.eqb].
  rewrite slot_casa by exact Hws. reflexivity.
Qed.

Lemma teste_repairs_slot (k ws : text) :
  plain_key k -> Forall (fun a => isspace a = true) ws ->
  Teste.limpar_json_invalido (empty_slot k ws) = empty_slot k null_lit.
Proof.
  intros Hk Hws. unfold Teste.limpar_json_invalido. cbv zeta.
  rewrite (slot_untouched comma k ws Hk (ws_no_colon ws Hws))
    by (rewrite slot_casa by exact Hws; reflexivity).
  rewrite (slot_filled k ws Hk Hws).
  apply slot_untouched; [exact Hk| |reflexivity].
  unfold null_lit, colon. repeat (constructor; [lia|]). constructor.
Qed.

Lemma slot_nul_free (k t : text) :
  plain_key k -> ~ In 0 t -> ~ In 0 (empty_slot k t).
Proof.
  intros Hk Ht. unfold empty_slot. cbn [In].
  intros [H | [H | H]]; try discriminate.
  apply in_app_iff in H as [H | [H | [H | H]]]; try discriminate.
  - exact (plain_key_nul_free k Hk H).
  - apply in_app_iff in H as [H | [H | []]]; try discriminate.
    exact (Ht H).
Qed.

Lemma propostas_repairs_slot (k ws : text) :
  plain_key k -> Forall (fun a => isspace a = true) ws ->
  Propostas.limpar_json_invalido (empty_slot k ws) = empty_slot k null_lit.
Proof.
  intros Hk Hws.
  rewrite propostas_repair_teste, (teste_repairs_slot k ws Hk Hws).
  apply remove_nul_fixed, slot_nul_free; [exact Hk|].
  unfold null_lit. cbn [In]. intros [H | [H | [H | [H | []]]]]; discriminate.
Qed.

(** [scanstring] on a key written without escapes. *)
Lemma scanstring_plain (k : text) :
  plain_key k ->
  forall acc rest : text,
    scanstring (k ++ 34 :: rest) acc = Some (rev acc ++ k, rest).
Proof.
  induction 1 as [|c k (H32 & H34 & H92 & _) _ IH]; intros acc rest.
  - cbn. rewrite app_nil_r. reflexivity.
  - cbn [app scanstring].
    apply N.eqb_neq in H34, H92. rewrite H34, H92.
    replace (c <=? 31) with false by (symmetry; apply N.leb_gt; lia).
    rewrite IH. cbn [rev]. rewrite <- app_assoc. reflexivity.
Qed.

(** No JSON value begins with whitespace or with a closing brace. *)
Lemma scan_once_bad (n : nat) (c : char) (r : text) :
  c <= 32 \/ 125 <= c -> scan_once (S n) (c :: r) = Bad.
Proof.
  intros H. cbn [scan_once].
  replace (c =? 34) with false by (symmetry; apply N.eqb_neq; lia).
  replace (c =? 123) with false by (symmetry; apply N.eqb_neq; lia).
  replace (c =? 91) with false by (symmetry; apply N.eqb_neq; lia).
  assert (L : forall a l, a <> c -> literal (a :: l) (c :: r) = None).
  { intros a l Ha. cbn [literal]. apply N.eqb_neq in Ha. rewrite Ha.
    reflexivity. }
  assert (M : match_number (c :: r) = None).
  { unfold match_number, integer_part.
    replace (c =? 45) with false by (symmetry; apply N.eqb_neq; lia).
    replace (c =? 48) with false by (symmetry; apply N.eqb_neq; lia).
    unfold is_digit.
    destruct (N.leb_spec 48 c); destruct (N.leb_spec c 57);
      try reflexivity; lia. }
  change (txt "null") with (110 :: [117; 108; 108]).
  change (txt "true") with (116 :: [114; 117; 101]).
  change (txt "false") with (102 :: [97; 108; 115; 101]).
  change (txt "NaN") with (78 :: [97; 78]).
  change (txt "Infinity") with (73 :: [110; 102; 105; 110; 105; 116; 121]).
  change (txt "-Infinity")
    with (45 :: [73; 110; 102; 105; 110; 105; 116; 121]).
  rewrite !L by lia. rewrite M. reflexivity.
Qed.

Lemma skip_ws_slot (ws : text) :
  Forall (fun a => isspace a = true) ws ->
  exists c r, skip_ws (ws ++ [125]) = c :: r /\ (c <= 32 \/ 125 <= c).
Proof.
  induction 1 as [|a ws Ha _ IH].
  - exists 125, []. split; [reflexivity|lia].
  - cbn [app skip_ws]. destruct (json_ws a); [exact IH|].
    exists a, (ws ++ [125]). split; [reflexivity|].
    apply isspace_range in Ha. lia.
Qed.

Lemma scan_once_object (n : nat) (r : text) :
  scan_once (S n) (123 :: 34 :: r) = object_loop n r [].
Proof. reflexivity. Qed.

Lemma slot_rejected (k ws : text) :
  plain_key k -> Forall (fun a => isspace a = true) ws ->
  json_loads (empty_slot k ws) = None.
Proof.
  intros Hk Hws. unfold json_loads.
  remember (budget (empty_slot k ws)) as n eqn:En.
  assert (B : (3 <= n)%nat).
  { subst n. unfold budget, empty_slot. cbn [length]. lia. }
  destruct n as [|[|[|n]]]; try lia.
  unfold empty_slot. cbn [startswith skip_ws json_ws N.eqb Pos.eqb orb].
  rewrite scan_once_object. cbn [object_loop].
  rewrite scanstring_plain by exact Hk.
  cbn [rev app skip_ws json_ws N.eqb Pos.eqb orb startswith tl].
  destruct (skip_ws_slot ws Hws) as (c & r & E & Hc).
  rewrite E, scan_once_bad by exact Hc. reflexivity.
Qed.

Lemma slot_accepted (k : text) :
  plain_key k ->
  json_loads (empty_slot k null_lit) = Some (VDict [(k, VSc SNone)]).
Proof.
  intros Hk. unfold json_loads.
  remember (budget (empty_slot k null_lit)) as n eqn:En.
  assert (B : (3 <= n)%nat).
  { subst n. unfold budget, empty_slot. cbn [length]. lia. }
  destruct n as [|[|[|n]]]; try lia.
  unfold empty_slot. cbn [startswith skip_ws json_ws N.eqb Pos.eqb orb].
  rewrite scan_once_object. cbn [object_loop].
  rewrite scanstring_plain by exact Hk.
  cbn [rev app skip_ws json_ws N.eqb Pos.eqb orb startswith tl].
  reflexivity.
Qed.

(** X12: an object with a single key, written without escapes and without a
    colon, whose value is missing (nothing or any whitespace between the
    colon and the closing brace) is rejected by the decoder, repaired by both
    repairers to the same object with null for the value, and decoded by
    [safe_load_json] to that object. *)
Theorem empty_slot_recovered (k ws : text) :
  plain_key k -> Forall (fun a => isspace a = true) ws ->
  json_loads (empty_slot k ws) = None
  /\ Teste.limpar_json_invalido (empty_slot k ws) = empty_slot k null_lit
  /\ Propostas.limpar_json_invalido (empty_slot k ws) = empty_slot k null_lit
  /\ Propostas.safe_load_json (empty_slot k ws) = VDict [(k, VSc SNone)].
Proof.
  intros Hk Hws.
  split; [apply slot_rejected; assumption|].
  split; [apply teste_repairs_slot; assumption|].
  split; [apply propostas_repairs_slot; assumption|].
  unfold Propostas.safe_load_json. cbv zeta.
  rewrite (slot_rejected k ws Hk Hws), (propostas_repairs_slot k ws Hk Hws).
  rewrite (slot_accepted k Hk). reflexivity.
Qed.

End EmptySlot.

Lemma empty_slot_recovered_witness :
  empty_slot (txt "emprestimosLegados") [32] = js "{'emprestimosLegados': }"
  /\ Propostas.safe_load_json (empty_slot (txt "emprestimosLegados") [32])
     = VDict [(txt "emprestimosLegados", VSc SNone)].
Proof.
  split; [reflexivity|].
  apply (empty_slot_recovered (txt "emprestimosLegados") [32]).
  - unfold plain_key. cbn. repeat (constructor; [lia|]). constructor.
  - repeat constructor.
Defined.

(** ** The counts teste.py returns *)

Section ReturnedCounts.

Variable rt : runtime.

Lemma select_length (cols : list text) (df : DataFrame value) :
  length (data (select cols df)) = length (data df).
Proof. unfold select. cbn [data]. apply length_map. Qed.

Lemma teste_montar_length (linhas : list dict) :
  (length (data (Teste.montar linhas)) <= length linhas)%nat.
Proof.
  unfold Teste.montar. cbv zeta. rewrite select_length.
  destruct (label_in (txt "Nome") (columns (frame_of_dicts linhas))).
  - unfold drop_duplicates. cbn [data].
    etransitivity; [apply keep_first_length|].
    unfold frame_of_dicts. cbn [data]. rewrite length_map. lia.
  - unfold frame_of_dicts. cbn [data]. rewrite length_map. lia.
Qed.

(** X13: the column count [excel_extrair_cbo_cnae] returns is that of the
    sheet it writes; the row count it returns is taken before duplicates are
    removed, so the sheet never has more lines than it says and can have
    fewer. *)
Theorem teste_returned_counts :
  (forall df : DataFrame scalar,
     let r := Teste.excel_extrair_cbo_cnae rt df in
     snd (snd r) = length (columns (fst r))
     /\ (length (data (fst r)) <= fst (snd r))%nat)
  /\ (exists df : DataFrame scalar,
        let r := Teste.excel_extrair_cbo_cnae rt df in
        (length (data (fst r)) < fst (snd r))%nat).
Proof.
  split.
  - intros df. unfold Teste.excel_extrair_cbo_cnae. cbv zeta.
    destruct (Teste.todas_linhas rt df) as [|l ls] eqn:E; cbn [fst snd].
    + split; [reflexivity|]. unfold as_values. cbn [data].
      rewrite length_map. lia.
    + split; [reflexivity|]. apply teste_montar_length.
  - exists (mkDF [txt "Margens Prev"]
                 [[SStr (js "{'nome':'Ana'}")]; [SStr (js "{'nome':'Ana'}")]]).
    vm_compute. lia.
Qed.

End ReturnedCounts.
